(** * OpenDevin: the per-session agent unit and the Action wire form

    A shallow embedding of [opendevin/server/agent/agent.py] (class
    [AgentUnit] and the two transition tables) and of
    [opendevin/events/action/action.py] ([Action.to_memory]).

    Python dictionaries are finite maps with string keys; dictionaries the
    caller hands over by reference live in a store, so that [dict.copy]
    followed by an item assignment can be told apart from an assignment to
    the caller's own object.  Coroutines are run to completion: every
    [await] of the source is sequenced in a state-and-exception monad whose
    state is the observable session (attributes, event log, outbound
    effects, store). *)

From stdpp Require Import gmap strings list fin_maps.
From Stdlib Require Import ZArith.

Set Warnings "-register-all".
Open Scope string_scope.
Open Scope list_scope.

(** ** Python values *)

(** JSON-like values carried by request dictionaries and event fields. *)
Inductive pyval : Type :=
  | PNone
  | PBool (b : bool)
  | PInt (z : Z)
  | PStr (s : string)
  | PList (l : list pyval)
  | PDict (d : gmap string pyval).

Abbreviation pydict := (gmap string pyval).

(** [value != ''] of the comprehension in [create_controller]: only the
    empty string compares equal to [''] . *)
Definition is_empty_str (v : pyval) : bool :=
  match v with
  | PStr "" => true
  | _ => false
  end.

(** The exceptions that the modelled code raises or lets through. *)
Inductive exn : Type :=
  | KeyError (msg : string)
  | TypeError (msg : string)
  | ValueError (msg : string)
  | AttributeError (msg : string)
  | NotImplementedError (msg : string)
  | OtherException (msg : string).

(** Results of fallible pure computations: an exception or a value. *)
Abbreviation result A := (exn + A)%type.

(** ** Schema enumerations *)

(** Modelled from the spec: the declaration of [AgentState]
    ([opendevin.core.schema]) is not part of the sources at hand; the
    spec lists the lifecycle states, which are also exactly the members
    the two tables below mention. *)
Inductive AgentState : Type :=
  | INIT
  | RUNNING
  | PAUSED
  | STOPPED
  | AWAITING_USER_INPUT
  | FINISHED.

#[global] Instance AgentState_eq_dec : EqDecision AgentState.
Proof. solve_decision. Defined.

Definition AgentState_index (a : AgentState) : nat :=
  match a with
  | INIT => 0 | RUNNING => 1 | PAUSED => 2
  | STOPPED => 3 | AWAITING_USER_INPUT => 4 | FINISHED => 5
  end.

Definition AgentState_of_index (n : nat) : option AgentState :=
  match n with
  | 0 => Some INIT | 1 => Some RUNNING | 2 => Some PAUSED
  | 3 => Some STOPPED | 4 => Some AWAITING_USER_INPUT | 5 => Some FINISHED
  | _ => None
  end.

#[global] Instance AgentState_countable : Countable AgentState.
Proof.
  apply (inj_countable AgentState_index AgentState_of_index).
  intros []; reflexivity.
Defined.

(** The members of [ConfigType] that [create_controller] looks up. *)
Inductive ConfigType : Type :=
  | AGENT
  | LLM_MODEL
  | LLM_API_KEY
  | LLM_BASE_URL
  | MAX_ITERATIONS
  | MAX_CHARS.

#[global] Instance ConfigType_eq_dec : EqDecision ConfigType.
Proof. solve_decision. Defined.

(** ** The transition tables *)

(** new task state to valid old task states *)
Definition VALID_TASK_STATE_MAP : gmap AgentState (list AgentState) :=
  {[ PAUSED := [RUNNING];
     RUNNING := [PAUSED];
     STOPPED := [RUNNING; PAUSED; AWAITING_USER_INPUT] ]}.

Definition IGNORED_TASK_STATE_MAP : gmap AgentState (list AgentState) :=
  {[ PAUSED := [INIT; PAUSED; STOPPED; FINISHED; AWAITING_USER_INPUT];
     RUNNING := [INIT; RUNNING; STOPPED; FINISHED; AWAITING_USER_INPUT];
     STOPPED := [INIT; STOPPED; FINISHED] ]}.

(** [table.get(new_state, [])] *)
Definition table_get (table : gmap AgentState (list AgentState))
    (new_state : AgentState) : list AgentState :=
  default [] (table !! new_state).

Definition valid_from (new_state : AgentState) : list AgentState :=
  table_get VALID_TASK_STATE_MAP new_state.

Definition ignored_from (new_state : AgentState) : list AgentState :=
  table_get IGNORED_TASK_STATE_MAP new_state.

(** ** Events *)

(** Modelled from the spec: the event classes ([opendevin.events]) are
    imported, not defined, by the two source files.  An event is one of
    the two degenerate classes that [on_event] tests with [isinstance],
    the state-change observation that the agent unit constructs, or any
    other action or observation, kept as its dataclass field set. *)
Inductive EventBody : Type :=
  | NullAction
  | NullObservation (content : string)
  | AgentStateChangedObservation (content : string) (agent_state : AgentState)
  | Action (fields : pydict)
  | Observation (fields : pydict).

(** An event object with the [source] attribute that [add_event] stamps. *)
Record Event : Type := mkEvent {
  body : EventBody;
  source : option string
}.

Definition new_event (b : EventBody) : Event := mkEvent b None.

(** [isinstance(event, NullAction)] and [isinstance(event, NullObservation)] *)
Definition is_NullAction (e : Event) : bool :=
  match body e with NullAction => true | _ => false end.

Definition is_NullObservation (e : Event) : bool :=
  match body e with NullObservation _ => true | _ => false end.

(** ** [Action.to_memory] *)

(** [d] is the dictionary returned by [super().to_memory()]; [d.pop]
    removes the discriminator from it, and a missing key is re-raised as
    [NotImplementedError]. *)
Definition to_memory (d : pydict) : result pydict :=
  match d !! "action" with
  | Some v => inr {[ "action" := v; "args" := PDict (delete "action" d) ]}
  | None => inl (NotImplementedError "does not have action attribute set")
  end.

(** Modelled from the spec: [Event.to_memory], the base-class method that
    [Action.to_memory] calls through [super()], is not part of the
    sources; per the spec it yields the field set of the instance.  The
    classes that the agent unit names are kept with the arguments their
    constructor is given there. *)
Definition Event_to_memory (b : EventBody) : pydict :=
  match b with
  | Action fields | Observation fields => fields
  | NullObservation content => {[ "content" := PStr content ]}
  | AgentStateChangedObservation content _ => {[ "content" := PStr content ]}
  | NullAction => ∅
  end.

Definition Action_to_memory (self : EventBody) : result pydict :=
  to_memory (Event_to_memory self).

(** Modelled from the spec: [action_from_dict] ([opendevin.events.action])
    is not part of the sources.  Per the spec an Action is built from a
    mapping holding the [action] name and an [args] mapping of argument
    names to values; the instance's fields are the arguments together with
    the discriminator, and a mapping without a resolvable discriminator is
    an error. *)
Definition action_from_dict_spec (action : pydict) : result Event :=
  match action !! "action" with
  | Some (PStr name) =>
      match action !! "args" with
      | None => inr (new_event (Action {[ "action" := PStr name ]}))
      | Some (PDict args) =>
          inr (new_event (Action (<["action" := PStr name]> args)))
      | Some _ => inl (TypeError "args must be a mapping")
      end
  | _ => inl (KeyError "action")
  end.

(** ** Collaborators *)

(** Modelled from the spec: the LLM client, the agent and the controller
    ([opendevin.llm], [opendevin.controller]) are external classes; only
    what the agent unit passes to them and reads back is kept. *)
Record LLM : Type := mkLLM {
  llm_model : pyval;
  llm_api_key : pyval;
  llm_base_url : pyval
}.

Record Agent : Type := mkAgent {
  agent_name : pyval;
  agent_llm : LLM
}.

Record AgentController : Type := mkAgentController {
  ctl_sid : string;
  ctl_agent : Agent;
  ctl_max_iterations : Z;
  ctl_max_chars : Z;
  ctl_agent_state : AgentState
}.

Definition get_agent_state (c : AgentController) : AgentState :=
  ctl_agent_state c.

(** An [asyncio.Task] handle. *)
Definition Task : Type := nat.

(** What the agent unit does to the outside, in program order. *)
Inductive Effect : Type :=
  | Print (action : option string)
  | LogInfo (agent_cls model : pyval)
  | LogException (e : exn)
  | SendError (message : string)
  | SendMessage (message : string)
  | Send (data : pydict)
  | TaskCancel (t : Task)
  | SandboxClose (c : AgentController).

(** ** The session *)

(** Attributes of an [AgentUnit]; [event_stream] is the ordered log of the
    stream it owns. *)
Record AgentUnit : Type := mkAgentUnit {
  sid : string;
  event_stream : list Event;
  agent_task : option Task;
  controller : option AgentController
}.

Definition loc : Type := positive.

(** The unit, the effects emitted so far, and the store of dictionaries
    that are reachable by reference. *)
Record World : Type := mkWorld {
  self : AgentUnit;
  trace : list Effect;
  heap : gmap loc pydict
}.

Definition set_event_stream (l : list Event) (u : AgentUnit) : AgentUnit :=
  mkAgentUnit (sid u) l (agent_task u) (controller u).

Definition set_controller (c : option AgentController) (u : AgentUnit) : AgentUnit :=
  mkAgentUnit (sid u) (event_stream u) (agent_task u) c.

Definition with_self (f : AgentUnit → AgentUnit) (w : World) : World :=
  mkWorld (f (self w)) (trace w) (heap w).

Definition with_trace (f : list Effect → list Effect) (w : World) : World :=
  mkWorld (self w) (f (trace w)) (heap w).

Definition with_heap (f : gmap loc pydict → gmap loc pydict) (w : World) : World :=
  mkWorld (self w) (trace w) (f (heap w)).

(** ** State and exception monad *)

Definition M (A : Type) : Type := World → World * result A.

Definition ret {A} (a : A) : M A := λ w, (w, inr a).

Definition raise {A} (e : exn) : M A := λ w, (w, inl e).

Definition bind {A B} (m : M A) (k : A → M B) : M B :=
  λ w, match m w with
       | (w', inr a) => k a w'
       | (w', inl e) => (w', inl e)
       end.

Declare Scope py_scope.
Delimit Scope py_scope with py.
Notation "'let*' x ':=' m 'in' k" := (bind m (λ x, k))
  (at level 10, x name, m at level 100, k at level 200) : py_scope.
Open Scope py_scope.

(** A pure computation that may raise. *)
Definition lift {A} (r : result A) : M A :=
  match r with
  | inr a => ret a
  | inl e => raise e
  end.

(** [try: body except Exception as e: handler e] *)
Definition try_except {A} (body : M A) (handler : exn → M A) : M A :=
  λ w, match body w with
       | (w', inl e) => handler e w'
       | r => r
       end.

Definition emit (e : Effect) : M unit :=
  λ w, (with_trace (λ t, t ++ [e]) w, inr tt).

Definition get_self : M AgentUnit := λ w, (w, inr (self w)).

Definition modify_self (f : AgentUnit → AgentUnit) : M unit :=
  λ w, (with_self f w, inr tt).

(** ** Dictionaries by reference *)

(** Reading the dictionary a reference points to.  Python has no dangling
    reference; one that the store does not hold stops the computation. *)
Definition deref (l : loc) : M pydict :=
  λ w, match heap w !! l with
       | Some d => (w, inr d)
       | None => (w, inl (OtherException "dangling reference"))
       end.

(** [d.copy()]: a new dictionary object with the same items. *)
Definition dict_copy (l : loc) : M loc :=
  let* d := deref l in
  λ w, let l' := fresh (dom (heap w)) in
       (with_heap (insert l' d) w, inr l').

(** [d[key] = value], in place. *)
Definition dict_setitem (l : loc) (key : string) (value : pyval) : M unit :=
  let* d := deref l in
  λ w, (with_heap (insert l (<[key := value]> d)) w, inr tt).

(** ** The agent unit *)

(** Names and collaborators that [agent.py] imports and that are not part
    of the sources.  [ActionType_INIT] is the value of [ActionType.INIT]
    and [ConfigType_value] the string value of a [ConfigType] member, the
    key under which a request carries that setting; [config_get] is
    [config.get]; [py_int] is the builtin [int]; [to_dict] is
    [Event.to_dict]; the three constructors may raise. *)
Class Imports : Type := {
  ActionType_INIT : string;
  ConfigType_value : ConfigType → string;
  config_get : ConfigType → pyval;
  py_int : pyval → result Z;
  action_from_dict : pydict → result Event;
  to_dict : Event → result pydict;
  LLM_init : pyval → pyval → pyval → result LLM;
  Agent_get_cls : pyval → result (LLM → result Agent);
  AgentController_init : string → Agent → Z → Z → result AgentController
}.

(** The settings resolved at the start of [create_controller]. *)
Record Settings : Type := mkSettings {
  agent_cls : pyval;
  model : pyval;
  api_key : pyval;
  api_base : pyval;
  max_iterations : pyval;
  max_chars : pyval
}.

Section AgentUnit.

Context `{!Imports}.

(** [session_manager.send_error(self.sid, message)] and its siblings:
    the transport records what it is handed. *)
Definition send_error (message : string) : M unit := emit (SendError message).

Definition send_message (message : string) : M unit := emit (SendMessage message).

Definition send (data : pydict) : M unit := emit (Send data).

(** Callback function for agent events. *)
Definition on_event (event : Event) : M unit :=
  if is_NullAction event then ret tt
  else if is_NullObservation event then ret tt
  else if bool_decide (source event = Some "agent") then
    let* data := lift (to_dict event) in
    send data
  else ret tt.

(** Modelled from the spec: [EventStream.add_event]
    ([opendevin.events.stream]) is not part of the sources.  Per the spec
    it stamps the event's source, appends the event to the ordered log
    and runs every subscriber on it before returning; the one subscriber
    registered by [AgentUnit.__init__] is [on_event]. *)
Definition add_event (event : Event) (src : string) : M unit :=
  let stamped := mkEvent (body event) (Some src) in
  let* _ := modify_self (λ u, set_event_stream (event_stream u ++ [stamped]) u) in
  on_event stamped.

(** Gets an argument from the args dictionary or the default value. *)
Definition get_arg_or_default (_args : pydict) (key : ConfigType) : pyval :=
  default (config_get key) (_args !! ConfigType_value key).

(** [start_event.get('args', {}).items()] filtered by [value != '']. *)
Definition extract_args (start_event : pydict) : result pydict :=
  match start_event !! "args" with
  | None => inr ∅
  | Some (PDict items) =>
      inr (filter (λ kv, is_empty_str kv.2 = false) items)
  | Some _ => inl (AttributeError "items")
  end.

Definition resolve_settings (args : pydict) : Settings :=
  {| agent_cls := get_arg_or_default args AGENT;
     model := get_arg_or_default args LLM_MODEL;
     api_key := get_arg_or_default args LLM_API_KEY;
     api_base := config_get LLM_BASE_URL;
     max_iterations := get_arg_or_default args MAX_ITERATIONS;
     max_chars := get_arg_or_default args MAX_CHARS |}.

(** The right-hand side of the assignment inside [try]: the keyword
    arguments are evaluated in order, then the constructor runs. *)
Definition build_controller (u : AgentUnit) (st : Settings) (llm : LLM)
    : result AgentController :=
  match Agent_get_cls (agent_cls st) with
  | inl e => inl e
  | inr cls =>
      match cls llm with
      | inl e => inl e
      | inr agent =>
          match py_int (max_iterations st) with
          | inl e => inl e
          | inr mi =>
              match py_int (max_chars st) with
              | inl e => inl e
              | inr mc => AgentController_init (sid u) agent mi mc
              end
          end
      end
  end.

Definition init_done : M unit :=
  let* u := get_self in
  match controller u with
  | None => send_error "No agent started."
  | Some _ =>
      add_event (new_event (AgentStateChangedObservation "" INIT)) "user"
  end.

Definition controller_error_message : string :=
  "Error creating controller. Please check Docker is running and visit `https://opendevin.github.io/OpenDevin/modules/usage/troubleshooting` for more debugging information..".

(** Creates an AgentController instance. *)
Definition create_controller (start_event : loc) : M unit :=
  let* ev := deref start_event in
  let* args := lift (extract_args ev) in
  let st := resolve_settings args in
  let* _ := emit (LogInfo (agent_cls st) (model st)) in
  let* llm := lift (LLM_init (model st) (api_key st) (api_base st)) in
  let* created :=
    try_except
      (let* u := get_self in
       let* c := lift (build_controller u st llm) in
       let* _ := modify_self (set_controller (Some c)) in
       ret true)
      (λ e,
       let* _ := emit (LogException e) in
       let* _ := send_error controller_error_message in
       ret false) in
  if created : bool then init_done else ret tt.

(** Dispatches actions to the agent from the client. *)
Definition dispatch (action : option string) (data : loc) : M unit :=
  let* _ := emit (Print action) in
  match action with
  | None => send_error "Invalid action"
  | Some name =>
      if bool_decide (name = ActionType_INIT) then create_controller data
      else
        let* action_dict := dict_copy data in
        let* _ := dict_setitem action_dict "action" (PStr name) in
        let* d := deref action_dict in
        let* action_obj := lift (action_from_dict d) in
        add_event action_obj "user"
  end.

(** Sets the state of the agent task. *)
Definition set_agent_state (new_state : AgentState) : M unit :=
  let* u := get_self in
  match controller u with
  | None => send_error "No agent started."
  | Some c =>
      let cur_state := get_agent_state c in
      if bool_decide (cur_state ∈ valid_from new_state) then
        add_event (new_event (AgentStateChangedObservation "" new_state)) "user"
      else if bool_decide (cur_state ∈ ignored_from new_state) then
        add_event (new_event (AgentStateChangedObservation "" new_state)) "user"
      else
        send_error "Current task state not recognized."
  end.

Definition close : M unit :=
  let* u := get_self in
  let* _ := match agent_task u with
            | Some t => emit (TaskCancel t)
            | None => ret tt
            end in
  match controller u with
  | Some c => emit (SandboxClose c)
  | None => ret tt
  end.

End AgentUnit.

(** ** Vocabulary for the statements *)

(** The event that a state-change request publishes. *)
Definition state_changed (new_state : AgentState) : Event :=
  mkEvent (AgentStateChangedObservation "" new_state) (Some "user").

(** The world after exactly [e] was appended to the stream's log. *)
Definition published (e : Event) (w : World) : World :=
  with_self (λ u, set_event_stream (event_stream u ++ [e]) u) w.

(** The world after exactly the effects [es] were emitted, in order. *)
Definition emitted (es : list Effect) (w : World) : World :=
  with_trace (λ t, t ++ es) w.

(** The world in which [dispatch] builds the typed action: the request
    was printed, and a new dictionary holds the items of [d] together
    with the discriminator. *)
Definition after_copy (name : string) (d : pydict) (w : World) : World :=
  with_heap (insert (fresh (dom (heap w))) (<["action" := PStr name]> d))
    (emitted [Print (Some name)] w).

(** The error messages handed to the transport, in order. *)
Definition errors_sent (t : list Effect) : list string :=
  omap (λ e, match e with SendError m => Some m | _ => None end) t.

(** The payloads forwarded to the transport, in order. *)
Definition data_sent (t : list Effect) : list pydict :=
  omap (λ e, match e with Send d => Some d | _ => None end) t.

(** ** Sample collaborators and sessions *)

(** Request keys as the spec names them. *)
Definition request_key (key : ConfigType) : string :=
  match key with
  | AGENT => "agent"
  | LLM_MODEL => "model"
  | LLM_API_KEY => "api_key"
  | LLM_BASE_URL => "base_url"
  | MAX_ITERATIONS => "max_iterations"
  | MAX_CHARS => "max_chars"
  end.

Definition sample_config (key : ConfigType) : pyval :=
  match key with
  | AGENT => PStr "MonologueAgent"
  | LLM_MODEL => PStr "gpt-3.5-turbo"
  | LLM_API_KEY => PNone
  | LLM_BASE_URL => PStr "http://localhost:4000"
  | MAX_ITERATIONS => PInt 100
  | MAX_CHARS => PInt 5000000
  end.

(** Integers convert to themselves; everything else is refused. *)
Definition sample_int (v : pyval) : result Z :=
  match v with
  | PInt z => inr z
  | PBool b => inr (if b then 1 else 0)%Z
  | _ => inl (ValueError "invalid literal for int()")
  end.

(** The wire form of an action is its memory form; observations are sent
    as their fields. *)
Definition sample_to_dict (e : Event) : result pydict :=
  match body e with
  | Action _ | NullAction => Action_to_memory (body e)
  | b => inr (Event_to_memory b)
  end.

(** One registered agent class. *)
Definition sample_get_cls (name : pyval) : result (LLM → result Agent) :=
  match name with
  | PStr "MonologueAgent" => inr (λ llm, inr (mkAgent name llm))
  | _ => inl (OtherException "agent class not registered")
  end.

Definition sample_imports : Imports :=
  {| ActionType_INIT := "initialize";
     ConfigType_value := request_key;
     config_get := sample_config;
     py_int := sample_int;
     action_from_dict := action_from_dict_spec;
     to_dict := sample_to_dict;
     LLM_init := λ m k b, inr (mkLLM m k b);
     Agent_get_cls := sample_get_cls;
     AgentController_init := λ s a mi mc, inr (mkAgentController s a mi mc INIT) |}.

(** The same collaborators with an LLM client that cannot be built. *)
Definition llm_down_imports : Imports :=
  {| ActionType_INIT := "initialize";
     ConfigType_value := request_key;
     config_get := sample_config;
     py_int := sample_int;
     action_from_dict := action_from_dict_spec;
     to_dict := sample_to_dict;
     LLM_init := λ _ _ _, inl (ValueError "unknown model");
     Agent_get_cls := sample_get_cls;
     AgentController_init := λ s a mi mc, inr (mkAgentController s a mi mc INIT) |}.

Definition sample_controller (st : AgentState) : AgentController :=
  mkAgentController "sid-1"
    (mkAgent (PStr "MonologueAgent")
       (mkLLM (PStr "gpt-3.5-turbo") PNone (PStr "http://localhost:4000")))
    100 5000000 st.

(** A request [{action: "run", args: {cmd: "ls"}}], an INIT request that
    names an agent class nobody registered, and one that can be served. *)
Definition run_request : pydict :=
  {[ "action" := PStr "run"; "args" := PDict {[ "cmd" := PStr "ls" ]} ]}.

Definition bad_init_request : pydict :=
  {[ "action" := PStr "initialize";
     "args" := PDict {[ "agent" := PStr "NoSuchAgent"; "model" := PStr "" ]} ]}.

Definition init_request : pydict :=
  {[ "action" := PStr "initialize";
     "args" := PDict {[ "agent" := PStr "MonologueAgent"; "api_key" := PStr "";
                        "max_iterations" := PInt 30 ]} ]}.

Definition sample_heap : gmap loc pydict :=
  {[ 1%positive := run_request; 2%positive := bad_init_request;
     3%positive := init_request ]}.

(** A fresh session, and sessions with a controller in a given state. *)
Definition fresh_world : World :=
  mkWorld (mkAgentUnit "sid-1" [] None None) [] sample_heap.

Definition world_in (st : AgentState) : World :=
  mkWorld (mkAgentUnit "sid-1" [] None (Some (sample_controller st))) [] sample_heap.

Definition live_world : World :=
  mkWorld (mkAgentUnit "sid-1" [] (Some 7) (Some (sample_controller RUNNING)))
    [] sample_heap.

(** ** Construction, method resolution and call sequences *)

(** [AgentUnit.__init__]: the session id is stored, the stream starts with
    an empty log (its one subscriber, [on_event], is the one [add_event]
    runs), and [agent_task] and [controller] keep their class-level
    default [None]. *)
Definition AgentUnit_init (sid : string) : AgentUnit :=
  mkAgentUnit sid [] None None.

(** The methods that the body of [class Action] binds. *)
Inductive Method : Type :=
  | RunMethod (f : AgentController → result EventBody)
  | ToMemoryMethod (f : pydict → result pydict).

(** A class body is executed top to bottom; a name bound twice keeps the
    binding made last. *)
Definition class_namespace (body : list (string * Method)) : gmap string Method :=
  foldl (λ ns kv, <[kv.1 := kv.2]> ns) ∅ body.

(** The body of [class Action], in source order: [run] raising
    [NotImplementedError], [to_memory], and [run] again, returning
    [NullObservation('')]. *)
Definition Action_body : list (string * Method) :=
  [ ("run", RunMethod (λ _, inl (NotImplementedError "")));
    ("to_memory", ToMemoryMethod to_memory);
    ("run", RunMethod (λ _, inr (NullObservation ""))) ].

(** [action.run(controller)] *)
Definition Action_run (controller : AgentController) : result EventBody :=
  match class_namespace Action_body !! "run" with
  | Some (RunMethod f) => f controller
  | _ => inl (AttributeError "run")
  end.

(** An event stamped as coming from the user. *)
Definition user_stamped (e : Event) : Prop := source e = Some "user".

(** The requests [close] makes of its collaborators in a given unit. *)
Definition close_effects (u : AgentUnit) : list Effect :=
  option_list (TaskCancel <$> agent_task u)
  ++ option_list (SandboxClose <$> controller u).

Section Calls.

Context `{!Imports}.

(** A call of one of the methods of the unit. *)
Inductive Call : Type :=
  | Call_send_error (message : string)
  | Call_send_message (message : string)
  | Call_send (data : pydict)
  | Call_dispatch (action : option string) (data : loc)
  | Call_create_controller (start_event : loc)
  | Call_init_done
  | Call_set_agent_state (new_state : AgentState)
  | Call_on_event (event : Event)
  | Call_close.

Definition call (c : Call) : M unit :=
  match c with
  | Call_send_error message => send_error message
  | Call_send_message message => send_message message
  | Call_send data => send data
  | Call_dispatch action data => dispatch action data
  | Call_create_controller start_event => create_controller start_event
  | Call_init_done => init_done
  | Call_set_agent_state new_state => set_agent_state new_state
  | Call_on_event event => on_event event
  | Call_close => close
  end.

(** A caller making the calls one after the other; a call that raised
    leaves the session as it was at the raise, and the caller goes on. *)
Fixpoint calls (cs : list Call) (w : World) : World :=
  match cs with
  | [] => w
  | c :: cs' => calls cs' (call c w).1
  end.

(** Calls that can install a controller. *)
Definition is_bootstrap (c : Call) : bool :=
  match c with
  | Call_dispatch (Some name) _ => bool_decide (name = ActionType_INIT)
  | Call_create_controller _ => true
  | _ => false
  end.

End Calls.

(** ** How a session may move *)

(** [advances P fixed w w'] relates a session to a later one: the session
    id and the task handle are the same, the log grew by events stamped
    as the user's, the trace grew by effects that satisfy [P], every
    dictionary that existed is still there unchanged, and, when [fixed]
    is set, the controller is the same. *)
Definition advances (P : Effect → Prop) (fixed : bool) (w w' : World) : Prop :=
  sid (self w') = sid (self w)
  ∧ agent_task (self w') = agent_task (self w)
  ∧ (∃ evs : list Event,
       event_stream (self w') = event_stream (self w) ++ evs
       ∧ Forall user_stamped evs)
  ∧ (∃ es : list Effect, trace w' = trace w ++ es ∧ Forall P es)
  ∧ heap w ⊆ heap w'
  ∧ (fixed = true → controller (self w') = controller (self w)).

(** A computation that moves every session in that way, whether it
    returns or raises. *)
Definition keeps {A} (P : Effect → Prop) (fixed : bool) (m : M A) : Prop :=
  ∀ w : World, advances P fixed w (m w).1.

(** The effects a call may add, given the task handle of the session:
    anything but a cancellation of a task the session does not hold. *)
Definition may_emit (u : AgentUnit) (e : Effect) : Prop :=
  ∀ t : Task, e = TaskCancel t → agent_task u = Some t.

(** * Properties *)

(** ** The transition tables *)

(** Membership in a concrete list of states is settled by evaluation. *)
Ltac mem_true := apply (bool_decide_unpack _); vm_compute; exact I.
Ltac mem_false H :=
  apply (bool_decide_pack _) in H; vm_compute in H; exact (False_ind _ H).

Lemma valid_from_cases (new_state cur : AgentState) :
  cur ∈ valid_from new_state ↔
    (new_state = PAUSED ∧ cur = RUNNING)
    ∨ (new_state = RUNNING ∧ cur = PAUSED)
    ∨ (new_state = STOPPED ∧ cur ∈ [RUNNING; PAUSED; AWAITING_USER_INPUT]).
Proof.
  assert (Hv : ∀ n, valid_from n =
            match n with
            | PAUSED => [RUNNING]
            | RUNNING => [PAUSED]
            | STOPPED => [RUNNING; PAUSED; AWAITING_USER_INPUT]
            | _ => []
            end) by (intros []; reflexivity).
  rewrite Hv.
  destruct new_state; rewrite ?elem_of_nil, ?list_elem_of_singleton;
    split; intros; repeat destruct_or?; repeat destruct_and?;
    try discriminate; try contradiction; subst; auto.
Qed.

Lemma tables_cover (new_state cur : AgentState) :
  new_state ∈ [PAUSED; RUNNING; STOPPED] →
  cur ∈ valid_from new_state ∨ cur ∈ ignored_from new_state.
Proof.
  intros Hnew.
  destruct new_state; try (mem_false Hnew);
    destruct cur; first [ left; mem_true | right; mem_true ].
Qed.

Lemma untabled_target (new_state cur : AgentState) :
  new_state ∉ [PAUSED; RUNNING; STOPPED] →
  (cur ∉ valid_from new_state) ∧ (cur ∉ ignored_from new_state).
Proof.
  intros Hnew.
  destruct new_state; try (exfalso; apply Hnew; mem_true);
    split; intros Hin; mem_false Hin.
Qed.

Lemma emitted_emitted (es1 es2 : list Effect) (w : World) :
  emitted es2 (emitted es1 w) = emitted (es1 ++ es2) w.
Proof. unfold emitted, with_trace; simpl. by rewrite app_assoc. Qed.

Lemma errors_sent_app (t1 t2 : list Effect) :
  errors_sent (t1 ++ t2) = errors_sent t1 ++ errors_sent t2.
Proof. apply omap_app. Qed.

Lemma data_sent_app (t1 t2 : list Effect) :
  data_sent (t1 ++ t2) = data_sent t1 ++ data_sent t2.
Proof. apply omap_app. Qed.

Section Properties.

Context `{!Imports}.

(** ** Publishing *)

(** A user-sourced state change is logged and not echoed to the client. *)
Lemma add_event_state_changed (new_state : AgentState) (w : World) :
  add_event (new_event (AgentStateChangedObservation "" new_state)) "user" w
  = (published (state_changed new_state) w, inr tt).
Proof. reflexivity. Qed.

(** Any event published as "user" is logged and never forwarded. *)
Lemma add_event_user (e : Event) (w : World) :
  add_event e "user" w = (published (mkEvent (body e) (Some "user")) w, inr tt).
Proof.
  unfold add_event, on_event, is_NullAction, is_NullObservation, bind; simpl.
  destruct (body e); reflexivity.
Qed.

(** ** State transitions *)

(** Both accepting branches run the same publication. *)
Lemma set_agent_state_accepts (new_state : AgentState)
    (c : AgentController) (w : World) :
  controller (self w) = Some c →
  get_agent_state c ∈ valid_from new_state
  ∨ get_agent_state c ∈ ignored_from new_state →
  set_agent_state new_state w = (published (state_changed new_state) w, inr tt).
Proof.
  intros Hc Hin. unfold set_agent_state, bind, get_self. rewrite Hc.
  case_bool_decide as Hv; [ apply add_event_state_changed | ].
  destruct Hin as [Hin | Hin]; [ contradiction | ].
  rewrite bool_decide_eq_true_2 by exact Hin.
  apply add_event_state_changed.
Qed.

(** C1.  When a controller exists and its current state is in
    [valid_from new_state] -- which happens exactly for PAUSED from
    RUNNING, RUNNING from PAUSED, and STOPPED from RUNNING, PAUSED or
    AWAITING_USER_INPUT -- [set_agent_state] returns normally, appends
    exactly the one event [AgentStateChanged(new_state)] stamped
    [source = "user"] to the stream and changes nothing else: no error
    is reported and nothing is sent. *)
Theorem set_agent_state_valid (new_state : AgentState)
    (c : AgentController) (w : World) :
  controller (self w) = Some c →
  get_agent_state c ∈ valid_from new_state →
  ((new_state = PAUSED ∧ get_agent_state c = RUNNING)
   ∨ (new_state = RUNNING ∧ get_agent_state c = PAUSED)
   ∨ (new_state = STOPPED
      ∧ get_agent_state c ∈ [RUNNING; PAUSED; AWAITING_USER_INPUT]))
  ∧ set_agent_state new_state w = (published (state_changed new_state) w, inr tt)
  ∧ event_stream (self (set_agent_state new_state w).1)
    = event_stream (self w) ++ [state_changed new_state]
  ∧ errors_sent (trace (set_agent_state new_state w).1) = errors_sent (trace w).
Proof.
  intros Hc Hvalid.
  assert (Hrun : set_agent_state new_state w
                 = (published (state_changed new_state) w, inr tt)).
  { apply (set_agent_state_accepts new_state c w Hc). by left. }
  split; [ by apply valid_from_cases | ].
  split; [ exact Hrun | ].
  rewrite Hrun. split; reflexivity.
Qed.

(** C2.  When a controller exists and its current state is in
    [ignored_from new_state], [set_agent_state] appends exactly the one
    event [AgentStateChanged(new_state)] stamped [source = "user"] and
    changes nothing else; a session on the valid branch appends the very
    same event, so the two branches cannot be told apart by what they
    publish. *)
Theorem set_agent_state_ignored (new_state : AgentState)
    (c : AgentController) (w : World) :
  controller (self w) = Some c →
  get_agent_state c ∈ ignored_from new_state →
  set_agent_state new_state w = (published (state_changed new_state) w, inr tt)
  ∧ ∀ (c' : AgentController) (w' : World),
      controller (self w') = Some c' →
      get_agent_state c' ∈ valid_from new_state →
      ∃ e : Event,
        set_agent_state new_state w' = (published e w', inr tt)
        ∧ set_agent_state new_state w = (published e w, inr tt).
Proof.
  intros Hc Hign.
  assert (Hrun : set_agent_state new_state w
                 = (published (state_changed new_state) w, inr tt)).
  { apply (set_agent_state_accepts new_state c w Hc). by right. }
  split; [ exact Hrun | ].
  intros c' w' Hc' Hvalid. exists (state_changed new_state).
  split; [ | exact Hrun ].
  apply (set_agent_state_accepts new_state c' w' Hc'). by left.
Qed.

(** C3.  [set_agent_state] publishes nothing and reports exactly one
    error when its preconditions fail: without a controller the error is
    "No agent started."; with a controller whose state is in neither
    table for [new_state] it is "Current task state not recognized.",
    which is the case for every current state when [new_state] is a
    target outside the tables (INIT, FINISHED, AWAITING_USER_INPUT). *)
Theorem set_agent_state_rejected (new_state : AgentState) (w : World) :
  (controller (self w) = None →
     set_agent_state new_state w
     = (emitted [SendError "No agent started."] w, inr tt))
  ∧ (∀ c : AgentController,
       controller (self w) = Some c →
       get_agent_state c ∉ valid_from new_state →
       get_agent_state c ∉ ignored_from new_state →
       set_agent_state new_state w
       = (emitted [SendError "Current task state not recognized."] w, inr tt))
  ∧ (∀ c : AgentController,
       controller (self w) = Some c →
       new_state ∈ [INIT; FINISHED; AWAITING_USER_INPUT] →
       set_agent_state new_state w
       = (emitted [SendError "Current task state not recognized."] w, inr tt)).
Proof.
  assert (Hneither : ∀ c : AgentController,
            controller (self w) = Some c →
            get_agent_state c ∉ valid_from new_state →
            get_agent_state c ∉ ignored_from new_state →
            set_agent_state new_state w
            = (emitted [SendError "Current task state not recognized."] w, inr tt)).
  { intros c Hc Hv Hi. unfold set_agent_state, bind, get_self. rewrite Hc.
    rewrite bool_decide_eq_false_2 by exact Hv.
    rewrite bool_decide_eq_false_2 by exact Hi. reflexivity. }
  split; [ | split ].
  - intros Hc. unfold set_agent_state, bind, get_self. rewrite Hc. reflexivity.
  - exact Hneither.
  - intros c Hc Hnew.
    destruct (untabled_target new_state (get_agent_state c)) as [Hv Hi].
    { intros Hin. destruct new_state; first [ mem_false Hnew | mem_false Hin ]. }
    by apply (Hneither c).
Qed.

(** ** Outbound filtering *)

(** C7.  [on_event] drops a [NullAction] or [NullObservation] without
    touching the transport; forwards any other event whose source is
    "agent" exactly once, as the wire form that [to_dict] yields; and
    does not forward any other event. *)
Theorem on_event_filter (event : Event) (w : World) :
  (is_NullAction event = true ∨ is_NullObservation event = true →
     on_event event w = (w, inr tt))
  ∧ (∀ wire : pydict,
       is_NullAction event = false →
       is_NullObservation event = false →
       source event = Some "agent" →
       to_dict event = inr wire →
       on_event event w = (emitted [Send wire] w, inr tt)
       ∧ data_sent (trace (on_event event w).1) = data_sent (trace w) ++ [wire])
  ∧ (is_NullAction event = false →
     is_NullObservation event = false →
     source event ≠ Some "agent" →
     on_event event w = (w, inr tt)).
Proof.
  unfold on_event. split; [ | split ].
  - intros [-> | Hobs]; [ reflexivity | ].
    rewrite Hobs. by destruct (is_NullAction event).
  - intros wire -> -> Hsrc Hwire.
    rewrite bool_decide_eq_true_2 by exact Hsrc.
    unfold bind, lift. rewrite Hwire. simpl.
    split; [ reflexivity | ].
    by rewrite data_sent_app.
  - intros -> -> Hsrc.
    by rewrite bool_decide_eq_false_2 by exact Hsrc.
Qed.

(** ** Teardown *)

(** [close] never touches the attributes of the unit. *)
Lemma close_keeps_self (w : World) : self (close w).1 = self w.
Proof.
  unfold close, bind, get_self.
  destruct (agent_task (self w)), (controller (self w)); reflexivity.
Qed.

(** C8, as the code has it.  With a task and a controller, one call to
    [close] asks the task to cancel once and closes the sandbox once;
    the handles stay in place, so a second call issues both requests
    once more; with neither a task nor a controller [close] does
    nothing and returns normally. *)
Theorem close_requests (w : World) :
  (∀ (t : Task) (c : AgentController),
     agent_task (self w) = Some t →
     controller (self w) = Some c →
     close w = (emitted [TaskCancel t; SandboxClose c] w, inr tt)
     ∧ close (close w).1
       = (emitted [TaskCancel t; SandboxClose c; TaskCancel t; SandboxClose c] w,
          inr tt))
  ∧ self (close w).1 = self w
  ∧ (agent_task (self w) = None →
     controller (self w) = None →
     close w = (w, inr tt)).
Proof.
  split; [ | split ].
  - intros t c Ht Hc.
    assert (Hone : ∀ w', agent_task (self w') = Some t →
              controller (self w') = Some c →
              close w' = (emitted [TaskCancel t; SandboxClose c] w', inr tt)).
    { intros w' Ht' Hc'. unfold close, bind, get_self. rewrite Ht', Hc'.
      simpl. unfold emit. simpl. f_equal.
      change (with_trace _ (with_trace _ w'))
        with (emitted [SandboxClose c] (emitted [TaskCancel t] w')).
      apply emitted_emitted. }
    split; [ by apply Hone | ].
    rewrite (Hone w Ht Hc). simpl.
    rewrite (Hone (emitted _ w)) by assumption.
    by rewrite emitted_emitted.
  - apply close_keeps_self.
  - intros Ht Hc. unfold close, bind, get_self. by rewrite Ht, Hc.
Qed.

(** ** Dispatch *)

Lemma dispatch_generic (name : string) (data : loc) (d : pydict) (w : World) :
  name ≠ ActionType_INIT →
  heap w !! data = Some d →
  dispatch (Some name) data w
  = match action_from_dict (<["action" := PStr name]> d) with
    | inr ev =>
        (published (mkEvent (body ev) (Some "user")) (after_copy name d w), inr tt)
    | inl e => (after_copy name d w, inl e)
    end.
Proof.
  intros Hname Hd.
  unfold dispatch. rewrite bool_decide_eq_false_2 by exact Hname.
  unfold bind at 1. simpl.
  unfold bind at 1. unfold dict_copy, bind at 1, deref at 1. simpl.
  rewrite Hd. simpl.
  unfold bind at 1. unfold dict_setitem, bind at 1, deref at 1. simpl.
  rewrite lookup_insert_eq. simpl.
  unfold bind at 1. unfold deref at 1. simpl.
  rewrite lookup_insert_eq.
  assert (Hw : with_heap
                 (insert (fresh (dom (heap w))) (<["action" := PStr name]> d))
                 (with_heap (insert (fresh (dom (heap w))) d)
                    (with_trace (λ t, t ++ [Print (Some name)]) w))
               = after_copy name d w).
  { unfold after_copy, emitted, with_heap, with_trace; simpl.
    by rewrite insert_insert_eq. }
  rewrite Hw. unfold bind, lift.
  destruct (action_from_dict (<["action":=PStr name]> d)) as [e | ev]; simpl.
  - reflexivity.
  - by rewrite add_event_user.
Qed.

(** A request with a dangling reference fails before anything is built. *)
Lemma dispatch_dangling (name : string) (data : loc) (w : World) :
  name ≠ ActionType_INIT →
  heap w !! data = None →
  dispatch (Some name) data w
  = (emitted [Print (Some name)] w, inl (OtherException "dangling reference")).
Proof.
  intros Hname Hd.
  unfold dispatch. rewrite bool_decide_eq_false_2 by exact Hname.
  unfold bind at 1. simpl.
  unfold bind at 1. unfold dict_copy, bind at 1, deref at 1. simpl.
  rewrite Hd. reflexivity.
Qed.

(** A request under a name other than INIT reports no error at all. *)
Lemma dispatch_generic_trace (name : string) (data : loc) (w : World) :
  name ≠ ActionType_INIT →
  trace (dispatch (Some name) data w).1 = trace w ++ [Print (Some name)].
Proof.
  intros Hname. destruct (heap w !! data) as [d |] eqn:Hd.
  - rewrite (dispatch_generic name data d w Hname Hd).
    by destruct (action_from_dict _).
  - by rewrite dispatch_dangling.
Qed.

(** C5, as the code has it.  When the action name is absent,
    [dispatch] reports "Invalid action", publishes nothing and returns;
    the empty string is a name like any other: it is not refused with
    "Invalid action". *)
Theorem dispatch_absent_action (data : loc) (w : World) :
  dispatch None data w
  = (emitted [Print None; SendError "Invalid action"] w, inr tt)
  ∧ event_stream (self (dispatch None data w).1) = event_stream (self w)
  ∧ errors_sent (trace (dispatch None data w).1)
    = errors_sent (trace w) ++ ["Invalid action"]
  ∧ (ActionType_INIT ≠ "" →
     errors_sent (trace (dispatch (Some "") data w).1) = errors_sent (trace w)).
Proof.
  assert (Hrun : dispatch None data w
                 = (emitted [Print None; SendError "Invalid action"] w, inr tt)).
  { unfold dispatch, bind, send_error, emit. simpl. f_equal.
    apply (emitted_emitted [Print None] [SendError "Invalid action"]). }
  split; [ exact Hrun | ]. rewrite Hrun. simpl.
  split; [ reflexivity | ]. split.
  - by rewrite errors_sent_app.
  - intros Hinit. rewrite dispatch_generic_trace by done.
    rewrite errors_sent_app. simpl. apply app_nil_r.
Qed.

(** C10.  For a name other than INIT, [dispatch] leaves the caller's
    dictionary as it was, and every other dictionary that existed too:
    the discriminator is written to a new dictionary, which holds the
    items of [data] plus ["action"], and the typed action published to
    the stream is built from that one. *)
Theorem dispatch_keeps_data (name : string) (data : loc) (d : pydict) (w : World) :
  name ≠ ActionType_INIT →
  heap w !! data = Some d →
  heap (dispatch (Some name) data w).1 !! data = Some d
  ∧ (∀ (l : loc) (d' : pydict),
       heap w !! l = Some d' →
       heap (dispatch (Some name) data w).1 !! l = Some d')
  ∧ heap (dispatch (Some name) data w).1 !! fresh (dom (heap w))
    = Some (<["action" := PStr name]> d)
  ∧ (∀ ev : Event,
       action_from_dict (<["action" := PStr name]> d) = inr ev →
       event_stream (self (dispatch (Some name) data w).1)
       = event_stream (self w) ++ [mkEvent (body ev) (Some "user")]).
Proof.
  intros Hname Hd.
  assert (Hheap : heap (dispatch (Some name) data w).1
                  = <[fresh (dom (heap w)) := <["action" := PStr name]> d]> (heap w)).
  { rewrite (dispatch_generic name data d w Hname Hd).
    by destruct (action_from_dict _). }
  assert (Hold : ∀ (l : loc) (d' : pydict),
            heap w !! l = Some d' →
            heap (dispatch (Some name) data w).1 !! l = Some d').
  { intros l d' Hl. rewrite Hheap, lookup_insert_ne; [ done | ].
    intros <-. apply (is_fresh (dom (heap w))).
    apply elem_of_dom. by eexists. }
  split; [ by apply Hold | ]. split; [ exact Hold | ]. split.
  - rewrite Hheap. apply lookup_insert_eq.
  - intros ev Hev. rewrite (dispatch_generic name data d w Hname Hd), Hev.
    reflexivity.
Qed.

(** ** Controller bootstrap *)

Lemma is_empty_str_false (v : pyval) : is_empty_str v = false ↔ v ≠ PStr "".
Proof.
  split.
  - intros Hv ->. discriminate.
  - intros Hv. destruct v as [ | | | s | | ]; try reflexivity.
    destruct s; [ by destruct Hv | reflexivity ].
Qed.

(** What the comprehension keeps of one request entry. *)
Lemma kept_items_lookup (items : pydict) (k : string) :
  filter (λ kv : string * pyval, is_empty_str kv.2 = false) items !! k
  = match items !! k with
    | Some v => if is_empty_str v then None else Some v
    | None => None
    end.
Proof.
  apply option_eq. intros v. rewrite map_lookup_filter_Some. simpl.
  destruct (items !! k) as [v' |]; [ | split; [ by intros [? _] | discriminate ] ].
  destruct (is_empty_str v') eqn:Hv'; split.
  - intros [[= ->] Hv]. congruence.
  - discriminate.
  - by intros [[= ->] _].
  - by intros [= ->].
Qed.

(** The bootstrap, stage by stage, once the request could be read. *)
Lemma create_controller_run (start_event : loc) (ev args : pydict) (w : World) :
  heap w !! start_event = Some ev →
  extract_args ev = inr args →
  create_controller start_event w
  = let st := resolve_settings args in
    let w1 := emitted [LogInfo (agent_cls st) (model st)] w in
    match LLM_init (model st) (api_key st) (api_base st) with
    | inl e => (w1, inl e)
    | inr llm =>
        match build_controller (self w) st llm with
        | inl e =>
            (emitted [LogException e; SendError controller_error_message] w1,
             inr tt)
        | inr c =>
            (published (state_changed INIT)
               (with_self (set_controller (Some c)) w1), inr tt)
        end
    end.
Proof.
  intros Hev Hargs. unfold create_controller.
  unfold bind at 1. unfold deref at 1. rewrite Hev.
  unfold bind at 1. rewrite Hargs. cbn [lift ret].
  unfold bind at 1. cbn [emit].
  change (with_trace _ w)
    with (emitted [LogInfo (agent_cls (resolve_settings args))
                     (model (resolve_settings args))] w).
  cbv zeta. unfold bind at 1.
  destruct (LLM_init _ _ _) as [e | llm]; [ reflexivity | ].
  cbn [lift ret]. unfold bind at 1, try_except.
  unfold bind at 1. cbn [get_self]. unfold bind at 1.
  change (self (emitted _ w)) with (self w).
  destruct (build_controller (self w) (resolve_settings args) llm) as [e | c].
  - cbn [lift raise]. unfold bind, emit, send_error, emit; simpl.
    unfold ret. f_equal.
    apply (emitted_emitted [LogException e]
             [SendError controller_error_message]).
  - reflexivity.
Qed.

(** The expression under [try] raises exactly when one of its stages
    does, in evaluation order. *)
Lemma build_controller_raises (u : AgentUnit) (st : Settings) (llm : LLM) (e : exn) :
  build_controller u st llm = inl e ↔
    Agent_get_cls (agent_cls st) = inl e
    ∨ ∃ cls, Agent_get_cls (agent_cls st) = inr cls ∧
        (cls llm = inl e
         ∨ ∃ agent, cls llm = inr agent ∧
             (py_int (max_iterations st) = inl e
              ∨ ∃ mi, py_int (max_iterations st) = inr mi ∧
                  (py_int (max_chars st) = inl e
                   ∨ ∃ mc, py_int (max_chars st) = inr mc ∧
                       AgentController_init (sid u) agent mi mc = inl e))).
Proof.
  unfold build_controller. split.
  - destruct (Agent_get_cls (agent_cls st)) as [e1 | cls];
      [ intros Hb; left; congruence | ].
    destruct (cls llm) as [e2 | agent] eqn:H2;
      [ intros Hb; right; exists cls; split; [ done | ]; left; congruence | ].
    destruct (py_int (max_iterations st)) as [e3 | mi];
      [ intros Hb; right; exists cls; split; [ done | ];
        right; exists agent; split; [ done | ]; left; congruence | ].
    destruct (py_int (max_chars st)) as [e4 | mc]; intros Hb;
      right; exists cls; (split; [ done | ]);
      right; exists agent; (split; [ done | ]);
      right; exists mi; (split; [ done | ]);
      [ left; congruence | right; exists mc; by split ].
  - intros [H1 | (cls & H1 & [H2 | (agent & H2 & [H3 | (mi & H3 &
             [H4 | (mc & H4 & H5)])])])];
      rewrite H1, ?H2, ?H3, ?H4; done.
Qed.

(** C4, as the code has it.  Once the LLM client has been built, any
    exception raised while the agent class is resolved or instantiated,
    the two bounds are converted, or the controller is constructed is
    caught inside [create_controller]: the failure is logged, exactly
    one error is reported to the client, the attributes of the unit --
    its controller among them -- are left as they were, so that a
    session that had no controller still has none, nothing is published
    and the call returns normally.  An exception raised by the LLM client
    constructor, which runs before the [try], leaves [create_controller]
    uncaught, with nothing reported. *)
Theorem create_controller_failure (start_event : loc) (ev args : pydict)
    (e : exn) (w : World) :
  heap w !! start_event = Some ev →
  extract_args ev = inr args →
  let st := resolve_settings args in
  (∀ llm : LLM,
     LLM_init (model st) (api_key st) (api_base st) = inr llm →
     build_controller (self w) st llm = inl e →
     create_controller start_event w
     = (emitted [LogInfo (agent_cls st) (model st); LogException e;
                 SendError controller_error_message] w, inr tt)
     ∧ self (create_controller start_event w).1 = self w
     ∧ (controller (self w) = None →
        controller (self (create_controller start_event w).1) = None)
     ∧ errors_sent (trace (create_controller start_event w).1)
       = errors_sent (trace w) ++ [controller_error_message])
  ∧ (LLM_init (model st) (api_key st) (api_base st) = inl e →
     create_controller start_event w
     = (emitted [LogInfo (agent_cls st) (model st)] w, inl e)).
Proof.
  intros Hev Hargs st. split.
  - intros llm Hllm Hbuild.
    assert (Hrun : create_controller start_event w
              = (emitted [LogInfo (agent_cls st) (model st); LogException e;
                          SendError controller_error_message] w, inr tt)).
    { rewrite (create_controller_run start_event ev args w Hev Hargs).
      cbv zeta. fold st. rewrite Hllm, Hbuild. f_equal.
      apply emitted_emitted. }
    split; [ exact Hrun | ]. rewrite Hrun.
    split; [ reflexivity | ]. split; [ intros Hnone; exact Hnone | ].
    simpl. by rewrite errors_sent_app.
  - intros Hllm.
    rewrite (create_controller_run start_event ev args w Hev Hargs).
    cbv zeta. fold st. by rewrite Hllm.
Qed.

(** C6.  The bootstrap keeps of the request's [args] exactly the entries
    whose value is not the empty string; agent class, model, API key,
    [max_iterations] and [max_chars] are each the request's value when
    the request has a non-empty one and the configured default
    otherwise; the base URL is the configured one whatever the request
    holds; and these are the values the LLM client and the controller
    are built from. *)
Theorem create_controller_settings (ev : pydict) :
  (ev !! "args" = None → extract_args ev = inr ∅)
  ∧ (∀ items : pydict,
       ev !! "args" = Some (PDict items) →
       ∃ args : pydict,
         extract_args ev = inr args
         ∧ (∀ (k : string) (v : pyval),
              args !! k = Some v ↔ items !! k = Some v ∧ v ≠ PStr "")
         ∧ (∀ key : ConfigType,
              get_arg_or_default args key
              = match items !! ConfigType_value key with
                | Some v => if is_empty_str v then config_get key else v
                | None => config_get key
                end))
  ∧ (∀ args : pydict,
       resolve_settings args
       = {| agent_cls := get_arg_or_default args AGENT;
            model := get_arg_or_default args LLM_MODEL;
            api_key := get_arg_or_default args LLM_API_KEY;
            api_base := config_get LLM_BASE_URL;
            max_iterations := get_arg_or_default args MAX_ITERATIONS;
            max_chars := get_arg_or_default args MAX_CHARS |})
  ∧ (∀ (start_event : loc) (args : pydict) (llm : LLM)
       (c : AgentController) (w : World),
       heap w !! start_event = Some ev →
       extract_args ev = inr args →
       LLM_init (get_arg_or_default args LLM_MODEL)
         (get_arg_or_default args LLM_API_KEY)
         (config_get LLM_BASE_URL) = inr llm →
       build_controller (self w) (resolve_settings args) llm = inr c →
       controller (self (create_controller start_event w).1) = Some c).
Proof.
  split; [ | split; [ | split ] ].
  - intros Hnone. unfold extract_args. by rewrite Hnone.
  - intros items Hitems. unfold extract_args. rewrite Hitems.
    eexists. split; [ reflexivity | ]. split.
    + intros k v. rewrite map_lookup_filter_Some. simpl.
      by rewrite is_empty_str_false.
    + intros key. unfold get_arg_or_default. rewrite kept_items_lookup.
      destruct (items !! ConfigType_value key) as [v |]; [ | reflexivity ].
      by destruct (is_empty_str v).
  - reflexivity.
  - intros start_event args llm c w Hev Hargs Hllm Hbuild.
    rewrite (create_controller_run start_event ev args w Hev Hargs).
    cbv zeta. cbn [model api_key api_base resolve_settings].
    rewrite Hllm, Hbuild. reflexivity.
Qed.

End Properties.

(** ** The wire form of an Action *)

(** C9.  When the field set holds the discriminator, [to_memory] yields
    the two-entry mapping [{action: v, args: rest}] where [rest] holds
    every other field and nothing else; the Action built from
    [{action: "run", args: {cmd: "ls"}}] goes back to exactly that
    mapping; and a field set without the discriminator raises
    [NotImplementedError] instead of producing a mapping. *)
Theorem to_memory_wire_form :
  (∀ (d : pydict) (v : pyval),
     d !! "action" = Some v →
     to_memory d = inr {[ "action" := v; "args" := PDict (delete "action" d) ]}
     ∧ delete "action" d !! "action" = None
     ∧ ∀ k : string, k ≠ "action" → delete "action" d !! k = d !! k)
  ∧ (∃ ev : Event,
       action_from_dict_spec run_request = inr ev
       ∧ Action_to_memory (body ev) = inr run_request)
  ∧ (∀ d : pydict,
       d !! "action" = None →
       ∃ msg : string, to_memory d = inl (NotImplementedError msg)).
Proof.
  split; [ | split ].
  - intros d v Hd. unfold to_memory. rewrite Hd.
    split; [ reflexivity | ]. split.
    + apply lookup_delete_eq.
    + intros k Hk. by apply lookup_delete_ne.
  - eexists. split; [ reflexivity | ]. vm_compute. reflexivity.
  - intros d Hd. unfold to_memory. rewrite Hd. by eexists.
Qed.

(** * The statements at concrete sessions *)

Example dispatch_init_sample :
  (@dispatch sample_imports (Some "initialize") 3%positive fresh_world).2 = inr tt
  ∧ event_stream
      (self (@dispatch sample_imports (Some "initialize") 3%positive fresh_world).1)
    = [state_changed INIT]
  ∧ (ctl_max_iterations
       <$> controller
             (self (@dispatch sample_imports (Some "initialize") 3%positive
                      fresh_world).1))
    = Some 30%Z.
Proof. vm_compute. repeat split. Qed.

Lemma set_agent_state_valid_witness :
  @set_agent_state sample_imports PAUSED (world_in RUNNING)
  = (published (state_changed PAUSED) (world_in RUNNING), inr tt).
Proof.
  refine (proj1 (proj2 (@set_agent_state_valid sample_imports PAUSED
                          (sample_controller RUNNING) (world_in RUNNING) _ _))).
  - reflexivity.
  - mem_true.
Defined.

Lemma set_agent_state_ignored_witness :
  @set_agent_state sample_imports PAUSED (world_in STOPPED)
  = (published (state_changed PAUSED) (world_in STOPPED), inr tt).
Proof.
  refine (proj1 (@set_agent_state_ignored sample_imports PAUSED
                   (sample_controller STOPPED) (world_in STOPPED) _ _)).
  - reflexivity.
  - mem_true.
Defined.

Lemma set_agent_state_rejected_witness :
  @set_agent_state sample_imports PAUSED fresh_world
  = (emitted [SendError "No agent started."] fresh_world, inr tt)
  ∧ @set_agent_state sample_imports FINISHED (world_in RUNNING)
    = (emitted [SendError "Current task state not recognized."] (world_in RUNNING),
       inr tt)
  ∧ @set_agent_state sample_imports INIT (world_in PAUSED)
    = (emitted [SendError "Current task state not recognized."] (world_in PAUSED),
       inr tt).
Proof.
  split; [ | split ]; cycle 2.
  - refine (proj1 (proj2 (@set_agent_state_rejected sample_imports INIT
                            (world_in PAUSED)))
              (sample_controller PAUSED) _ _ _).
    + reflexivity.
    + intros Hin. mem_false Hin.
    + intros Hin. mem_false Hin.
  - refine (proj1 (@set_agent_state_rejected sample_imports PAUSED fresh_world) _).
    reflexivity.
  - refine (proj2 (proj2 (@set_agent_state_rejected sample_imports FINISHED
                            (world_in RUNNING)))
              (sample_controller RUNNING) _ _).
    + reflexivity.
    + mem_true.
Defined.

(** An LLM client that cannot be built is not handled: the exception
    leaves [create_controller] and the client is told nothing. *)
Lemma create_controller_llm_escapes :
  (@create_controller llm_down_imports 3%positive fresh_world).2
  = inl (ValueError "unknown model")
  ∧ errors_sent (trace (@create_controller llm_down_imports 3%positive fresh_world).1)
    = [].
Proof. vm_compute. split; reflexivity. Qed.

Lemma create_controller_failure_witness :
  @create_controller sample_imports 2%positive fresh_world
  = (emitted [LogInfo (PStr "NoSuchAgent") (PStr "gpt-3.5-turbo");
              LogException (OtherException "agent class not registered");
              SendError controller_error_message] fresh_world, inr tt)
  ∧ controller (self (@create_controller sample_imports 2%positive fresh_world).1)
    = None.
Proof.
  assert (Hev : heap fresh_world !! 2%positive = Some bad_init_request)
    by (vm_compute; reflexivity).
  assert (Hargs : extract_args bad_init_request
                  = inr {[ "agent" := PStr "NoSuchAgent" ]})
    by (vm_compute; reflexivity).
  destruct (proj1 (@create_controller_failure sample_imports 2%positive
                     bad_init_request {[ "agent" := PStr "NoSuchAgent" ]}
                     (OtherException "agent class not registered") fresh_world
                     Hev Hargs)
              (mkLLM (PStr "gpt-3.5-turbo") PNone (PStr "http://localhost:4000")))
    as (Hrun & _ & Hnone & _).
  - vm_compute. reflexivity.
  - vm_compute. reflexivity.
  - split; [ exact Hrun | apply Hnone; reflexivity ].
Defined.

(** The empty name is dispatched like any other name: nothing is refused
    and an event is published. *)
Lemma dispatch_empty_name_accepted :
  errors_sent (trace (@dispatch sample_imports (Some "") 1%positive fresh_world).1)
  = []
  ∧ length (event_stream
              (self (@dispatch sample_imports (Some "") 1%positive fresh_world).1))
    = 1.
Proof. vm_compute. split; reflexivity. Qed.

Lemma dispatch_absent_action_witness :
  @dispatch sample_imports None 1%positive fresh_world
  = (emitted [Print None; SendError "Invalid action"] fresh_world, inr tt)
  ∧ errors_sent
      (trace (@dispatch sample_imports (Some "") 1%positive fresh_world).1)
    = errors_sent (trace fresh_world).
Proof.
  destruct (@dispatch_absent_action sample_imports 1%positive fresh_world)
    as (Hrun & _ & _ & Hempty).
  split; [ exact Hrun | apply Hempty; discriminate ].
Defined.

Lemma create_controller_settings_witness :
  ∃ args : pydict,
    @extract_args bad_init_request = inr args
    ∧ @get_arg_or_default sample_imports args AGENT = PStr "NoSuchAgent"
    ∧ @get_arg_or_default sample_imports args LLM_MODEL = PStr "gpt-3.5-turbo".
Proof.
  destruct (proj1 (proj2 (@create_controller_settings sample_imports
                            bad_init_request))
              {[ "agent" := PStr "NoSuchAgent"; "model" := PStr "" ]} eq_refl)
    as (args & Hargs & _ & Hget).
  exists args. split; [ exact Hargs | ].
  rewrite !Hget. split; reflexivity.
Defined.

Lemma on_event_filter_witness :
  @on_event sample_imports (mkEvent (NullObservation "") (Some "agent")) fresh_world
  = (fresh_world, inr tt)
  ∧ @on_event sample_imports
      (mkEvent (Action {[ "action" := PStr "run"; "cmd" := PStr "ls" ]})
         (Some "agent")) fresh_world
    = (emitted [Send run_request] fresh_world, inr tt)
  ∧ @on_event sample_imports
      (mkEvent (Action {[ "action" := PStr "run"; "cmd" := PStr "ls" ]})
         (Some "user")) fresh_world
    = (fresh_world, inr tt).
Proof.
  split; [ | split ].
  - apply (proj1 (@on_event_filter sample_imports _ fresh_world)).
    right. reflexivity.
  - refine (proj1 (proj1 (proj2 (@on_event_filter sample_imports _ fresh_world))
                     run_request _ _ _ _)); reflexivity.
  - apply (proj2 (proj2 (@on_event_filter sample_imports _ fresh_world)));
      [ reflexivity | reflexivity | discriminate ].
Defined.

(** A second [close] is not without effect: the session it leaves differs
    from the one it found. *)
Lemma close_twice_differs :
  (close (close live_world).1).1 ≠ (close live_world).1.
Proof. vm_compute. intros Heq. discriminate Heq. Qed.

Lemma close_requests_witness :
  close live_world
  = (emitted [TaskCancel 7; SandboxClose (sample_controller RUNNING)] live_world,
     inr tt)
  ∧ close fresh_world = (fresh_world, inr tt).
Proof.
  split.
  - exact (proj1 (proj1 (close_requests live_world) 7
                    (sample_controller RUNNING) eq_refl eq_refl)).
  - exact (proj2 (proj2 (close_requests fresh_world)) eq_refl eq_refl).
Defined.

Lemma to_memory_wire_form_witness :
  to_memory {[ "action" := PStr "run"; "cmd" := PStr "ls" ]} = inr run_request
  ∧ ∃ msg : string,
      to_memory {[ "cmd" := PStr "ls" ]} = inl (NotImplementedError msg).
Proof.
  split.
  - exact (proj1 (proj1 to_memory_wire_form
                    {[ "action" := PStr "run"; "cmd" := PStr "ls" ]}
                    (PStr "run") eq_refl)).
  - exact (proj2 (proj2 to_memory_wire_form) {[ "cmd" := PStr "ls" ]} eq_refl).
Defined.

Lemma dispatch_keeps_data_witness :
  heap (@dispatch sample_imports (Some "run") 1%positive fresh_world).1 !! 1%positive
  = Some run_request.
Proof.
  refine (proj1 (@dispatch_keeps_data sample_imports "run" 1%positive run_request
                   fresh_world _ _)).
  - discriminate.
  - reflexivity.
Defined.

(** * Further properties *)

(** ** The wire form, continued *)

(** X1.  Putting a discriminator [v] on a field set that has none and
    taking the memory form gives back exactly that field set as [args],
    next to [v]. *)
Theorem to_memory_insert (args : pydict) (v : pyval) :
  args !! "action" = None →
  to_memory (<["action" := v]> args)
  = inr {[ "action" := v; "args" := PDict args ]}.
Proof.
  intros Hnone. unfold to_memory. rewrite lookup_insert_eq.
  by rewrite delete_insert_eq, delete_id.
Qed.

(** X2.  The memory form loses nothing: two field sets with the same
    memory form are the same field set. *)
Theorem to_memory_inj (d1 d2 wire : pydict) :
  to_memory d1 = inr wire →
  to_memory d2 = inr wire →
  d1 = d2.
Proof.
  unfold to_memory.
  destruct (d1 !! "action") as [v1 |] eqn:H1; [ | discriminate ].
  destruct (d2 !! "action") as [v2 |] eqn:H2; [ | discriminate ].
  intros Hw1 Hw2.
  assert (Heq : ({[ "action" := v2; "args" := PDict (delete "action" d2) ]} : pydict)
                = {[ "action" := v1; "args" := PDict (delete "action" d1) ]})
    by congruence.
  clear Hw1 Hw2.
  assert (Hv : v2 = v1).
  { apply (f_equal (λ m : pydict, m !! "action")) in Heq. cbv beta in Heq.
    rewrite !lookup_insert_eq in Heq. congruence. }
  assert (Hrest : delete "action" d2 = delete "action" d1).
  { apply (f_equal (λ m : pydict, m !! "args")) in Heq. cbv beta in Heq.
    rewrite !lookup_insert_ne, !lookup_singleton_eq in Heq by discriminate.
    congruence. }
  subst v2.
  rewrite <- (insert_delete_id d1 "action" v1 H1).
  rewrite <- (insert_delete_id d2 "action" v1 H2).
  by rewrite Hrest.
Qed.

(** X3.  Whatever fields an action has, its memory form has exactly the
    two keys [action] and [args]; a field that is itself called [args]
    is kept, one level down. *)
Theorem to_memory_keys (d wire : pydict) :
  to_memory d = inr wire →
  dom wire = {[ "action"; "args" ]}
  ∧ ∃ rest : pydict,
      wire !! "args" = Some (PDict rest)
      ∧ rest !! "args" = d !! "args"
      ∧ dom rest = dom d ∖ {[ "action" ]}.
Proof.
  unfold to_memory. destruct (d !! "action") as [v |]; [ | discriminate ].
  intros Hw.
  assert (Hwire : wire = {[ "action" := v; "args" := PDict (delete "action" d) ]})
    by congruence.
  subst wire. clear Hw. split.
  - by rewrite dom_insert_L, dom_singleton_L.
  - exists (delete "action" d). split; [ | split ].
    + rewrite lookup_insert_ne by discriminate. apply lookup_singleton_eq.
    + apply lookup_delete_ne. discriminate.
    + apply dom_delete_L.
Qed.

(** ** Method resolution in [class Action] *)

(** X4.  [run] is bound twice in the class body and the later binding is
    the one a call reaches: [run] returns an empty [NullObservation] for
    every controller and never raises [NotImplementedError]; [to_memory]
    is reached as defined. *)
Theorem Action_run_returns_null (controller : AgentController) :
  Action_run controller = inr (NullObservation "")
  ∧ class_namespace Action_body !! "to_memory" = Some (ToMemoryMethod to_memory)
  ∧ dom (class_namespace Action_body) = {[ "run"; "to_memory" ]}.
Proof.
  assert (Hns : class_namespace Action_body
                = <["run" := RunMethod (λ _, inr (NullObservation ""))]>
                    (<["to_memory" := ToMemoryMethod to_memory]> ∅)).
  { unfold class_namespace, Action_body. cbn [foldl fst snd].
    rewrite (insert_insert_ne _ "to_memory" "run") by discriminate.
    by rewrite insert_insert_eq. }
  unfold Action_run. rewrite Hns. split; [ | split ].
  - by rewrite lookup_insert_eq.
  - rewrite lookup_insert_ne by discriminate. apply lookup_insert_eq.
  - rewrite !dom_insert_L, dom_empty_L. apply set_eq. intros k.
    rewrite !elem_of_union, !elem_of_singleton, elem_of_empty. tauto.
Qed.

(** ** The transition tables, continued *)

(** X5.  For each of the three targets the tables know, every state is in
    exactly one of [valid_from] and [ignored_from], so the order of the
    two tests in [set_agent_state] is immaterial; for every other target
    both lists are empty. *)
Theorem tables_partition (new_state cur : AgentState) :
  (new_state ∈ [PAUSED; RUNNING; STOPPED] →
     (cur ∈ valid_from new_state ∨ cur ∈ ignored_from new_state)
     ∧ ¬ (cur ∈ valid_from new_state ∧ cur ∈ ignored_from new_state))
  ∧ (new_state ∉ [PAUSED; RUNNING; STOPPED] →
     valid_from new_state = [] ∧ ignored_from new_state = []).
Proof.
  split.
  - intros Hnew. split; [ by apply tables_cover | ].
    intros [Hv Hi].
    destruct new_state; try (mem_false Hnew);
      destruct cur; first [ mem_false Hv | mem_false Hi ].
  - intros Hnew.
    destruct new_state; try (exfalso; apply Hnew; mem_true);
      split; reflexivity.
Qed.

Lemma tables_partition_witness :
  (RUNNING ∈ valid_from PAUSED ∨ RUNNING ∈ ignored_from PAUSED)
  ∧ valid_from FINISHED = [].
Proof.
  split.
  - refine (proj1 (proj1 (tables_partition PAUSED RUNNING) _)). mem_true.
  - refine (proj1 (proj2 (tables_partition FINISHED RUNNING) _)).
    intros Hin. mem_false Hin.
Defined.

Lemma to_memory_insert_witness :
  to_memory (<["action" := PStr "run"]> {[ "cmd" := PStr "ls" ]})
  = inr {[ "action" := PStr "run"; "args" := PDict {[ "cmd" := PStr "ls" ]} ]}.
Proof. apply to_memory_insert. reflexivity. Defined.

Lemma to_memory_inj_witness :
  ({[ "action" := PStr "run"; "cmd" := PStr "ls" ]} : pydict)
  = <["cmd" := PStr "ls"]> {[ "action" := PStr "run" ]}.
Proof.
  apply (to_memory_inj _ _ run_request); vm_compute; reflexivity.
Defined.

Lemma to_memory_keys_witness :
  dom run_request = ({[ "action"; "args" ]} : gset string).
Proof.
  refine (proj1 (to_memory_keys {[ "action" := PStr "run"; "cmd" := PStr "ls" ]}
                   run_request _)).
  vm_compute. reflexivity.
Defined.

(** ** Sessions only move forward *)

Lemma advances_refl (P : Effect → Prop) (fixed : bool) (w : World) :
  advances P fixed w w.
Proof.
  unfold advances. split; [ done | ]. split; [ done | ]. split.
  { exists []. split; [ by rewrite app_nil_r | constructor ]. }
  split.
  { exists []. split; [ by rewrite app_nil_r | constructor ]. }
  split; done.
Qed.

Lemma advances_trans (P : Effect → Prop) (fixed : bool) (w1 w2 w3 : World) :
  advances P fixed w1 w2 → advances P fixed w2 w3 → advances P fixed w1 w3.
Proof.
  intros (Hs1 & Ht1 & (evs1 & Hl1 & Hu1) & (es1 & Hx1 & Hp1) & Hh1 & Hc1)
         (Hs2 & Ht2 & (evs2 & Hl2 & Hu2) & (es2 & Hx2 & Hp2) & Hh2 & Hc2).
  unfold advances. split; [ congruence | ]. split; [ congruence | ]. split.
  { exists (evs1 ++ evs2). split.
    - by rewrite Hl2, Hl1, app_assoc.
    - by apply Forall_app. }
  split.
  { exists (es1 ++ es2). split.
    - by rewrite Hx2, Hx1, app_assoc.
    - by apply Forall_app. }
  split.
  - by transitivity (heap w2).
  - intros Hf. rewrite (Hc2 Hf). by apply Hc1.
Qed.

Lemma advances_unfix (P : Effect → Prop) (fixed : bool) (w w' : World) :
  advances P true w w' → advances P fixed w w'.
Proof.
  intros (Hs & Ht & Hl & Hx & Hh & Hc).
  unfold advances. do 5 (split; [ assumption | ]). intros _. by apply Hc.
Qed.

Lemma advances_emitted (P : Effect → Prop) (fixed : bool)
    (es : list Effect) (w : World) :
  Forall P es → advances P fixed w (emitted es w).
Proof.
  intros Hes. unfold advances; simpl. split; [ done | ]. split; [ done | ]. split.
  { exists []. split; [ by rewrite app_nil_r | constructor ]. }
  split; [ by exists es | ]. split; done.
Qed.

Lemma advances_published (P : Effect → Prop) (fixed : bool)
    (e : Event) (w : World) :
  user_stamped e → advances P fixed w (published e w).
Proof.
  intros He. unfold advances; simpl. split; [ done | ]. split; [ done | ]. split.
  { exists [e]. split; [ done | by constructor ]. }
  split.
  { exists []. split; [ by rewrite app_nil_r | constructor ]. }
  split; done.
Qed.

(** A new dictionary leaves the existing ones alone. *)
Lemma advances_alloc (P : Effect → Prop) (fixed : bool) (d : pydict) (w : World) :
  advances P fixed w (with_heap (insert (fresh (dom (heap w))) d) w).
Proof.
  unfold advances; simpl. split; [ done | ]. split; [ done | ]. split.
  { exists []. split; [ by rewrite app_nil_r | constructor ]. }
  split.
  { exists []. split; [ by rewrite app_nil_r | constructor ]. }
  split; [ | done ].
  apply insert_subseteq, not_elem_of_dom, is_fresh.
Qed.

Lemma keeps_ret {A} (P : Effect → Prop) (fixed : bool) (a : A) :
  keeps P fixed (ret a).
Proof. intros w. apply advances_refl. Qed.

Lemma keeps_raise {A} (P : Effect → Prop) (fixed : bool) (e : exn) :
  keeps P fixed (raise (A := A) e).
Proof. intros w. apply advances_refl. Qed.

Lemma keeps_lift {A} (P : Effect → Prop) (fixed : bool) (r : result A) :
  keeps P fixed (lift r).
Proof. destruct r; [ apply keeps_raise | apply keeps_ret ]. Qed.

Lemma keeps_get_self (P : Effect → Prop) (fixed : bool) :
  keeps P fixed get_self.
Proof. intros w. apply advances_refl. Qed.

Lemma keeps_deref (P : Effect → Prop) (fixed : bool) (l : loc) :
  keeps P fixed (deref l).
Proof. intros w. unfold deref. destruct (heap w !! l); apply advances_refl. Qed.

Lemma keeps_emit (P : Effect → Prop) (fixed : bool) (e : Effect) :
  P e → keeps P fixed (emit e).
Proof. intros He w. apply (advances_emitted P fixed [e]). by constructor. Qed.

Lemma keeps_bind {A B} (P : Effect → Prop) (fixed : bool)
    (m : M A) (k : A → M B) :
  keeps P fixed m → (∀ a : A, keeps P fixed (k a)) → keeps P fixed (bind m k).
Proof.
  intros Hm Hk w. unfold bind. specialize (Hm w).
  destruct (m w) as [w' [e | a]]; simpl in Hm; [ exact Hm | ].
  apply (advances_trans P fixed w w'); [ exact Hm | apply Hk ].
Qed.

Lemma keeps_try_except {A} (P : Effect → Prop) (fixed : bool)
    (body : M A) (handler : exn → M A) :
  keeps P fixed body → (∀ e : exn, keeps P fixed (handler e)) →
  keeps P fixed (try_except body handler).
Proof.
  intros Hb Hh w. unfold try_except. specialize (Hb w).
  destruct (body w) as [w' [e | a]]; simpl in Hb; [ | exact Hb ].
  apply (advances_trans P fixed w w'); [ exact Hb | apply Hh ].
Qed.

Lemma keeps_set_controller (P : Effect → Prop) (c : option AgentController) :
  keeps P false (modify_self (set_controller c)).
Proof.
  intros w. unfold advances; simpl. split; [ done | ]. split; [ done | ]. split.
  { exists []. split; [ by rewrite app_nil_r | constructor ]. }
  split.
  { exists []. split; [ by rewrite app_nil_r | constructor ]. }
  split; done.
Qed.

Section Frames.

Context `{!Imports}.

Lemma keeps_add_event_user (P : Effect → Prop) (fixed : bool) (e : Event) :
  keeps P fixed (add_event e "user").
Proof. intros w. rewrite add_event_user. by apply advances_published. Qed.

Lemma keeps_on_event (P : Effect → Prop) (fixed : bool) (event : Event) :
  (∀ d : pydict, P (Send d)) → keeps P fixed (on_event event).
Proof.
  intros HP. unfold on_event.
  destruct (is_NullAction event); [ apply keeps_ret | ].
  destruct (is_NullObservation event); [ apply keeps_ret | ].
  case_bool_decide; [ | apply keeps_ret ].
  apply keeps_bind; [ apply keeps_lift | ].
  intros d. by apply keeps_emit.
Qed.

Lemma keeps_init_done (P : Effect → Prop) (fixed : bool) :
  (∀ m : string, P (SendError m)) → keeps P fixed init_done.
Proof.
  intros HP. unfold init_done.
  apply keeps_bind; [ apply keeps_get_self | ].
  intros u. destruct (controller u).
  - apply keeps_add_event_user.
  - by apply keeps_emit.
Qed.

Lemma keeps_set_agent_state (P : Effect → Prop) (fixed : bool)
    (new_state : AgentState) :
  (∀ m : string, P (SendError m)) → keeps P fixed (set_agent_state new_state).
Proof.
  intros HP. unfold set_agent_state.
  apply keeps_bind; [ apply keeps_get_self | ].
  intros u. destruct (controller u); [ | by apply keeps_emit ].
  repeat case_bool_decide;
    first [ apply keeps_add_event_user | by apply keeps_emit ].
Qed.

Lemma keeps_create_controller (P : Effect → Prop) (start_event : loc) :
  (∀ a m : pyval, P (LogInfo a m)) →
  (∀ e : exn, P (LogException e)) →
  (∀ m : string, P (SendError m)) →
  keeps P false (create_controller start_event).
Proof.
  intros Hinfo Hexn Herr. unfold create_controller.
  apply keeps_bind; [ apply keeps_deref | ]. intros ev.
  apply keeps_bind; [ apply keeps_lift | ]. intros args.
  apply keeps_bind; [ by apply keeps_emit | ]. intros _.
  apply keeps_bind; [ apply keeps_lift | ]. intros llm.
  apply keeps_bind.
  - apply keeps_try_except.
    + apply keeps_bind; [ apply keeps_get_self | ]. intros u.
      apply keeps_bind; [ apply keeps_lift | ]. intros c.
      apply keeps_bind; [ apply keeps_set_controller | ]. intros _.
      apply keeps_ret.
    + intros e.
      apply keeps_bind; [ by apply keeps_emit | ]. intros _.
      apply keeps_bind; [ by apply keeps_emit | ]. intros _.
      apply keeps_ret.
  - intros [ | ]; [ by apply keeps_init_done | apply keeps_ret ].
Qed.

(** [close] in one equation, for every session. *)
Lemma close_general (w : World) :
  close w = (emitted (close_effects (self w)) w, inr tt).
Proof.
  destruct w as [u t h]. unfold close, close_effects, bind, get_self, emitted.
  simpl. destruct (agent_task u), (controller u); simpl;
    unfold emit, ret, with_trace; simpl;
    rewrite <- ?app_assoc, ?app_nil_r; reflexivity.
Qed.

Lemma advances_close (P : Effect → Prop) (fixed : bool) (w : World) :
  (∀ t : Task, agent_task (self w) = Some t → P (TaskCancel t)) →
  (∀ c : AgentController, P (SandboxClose c)) →
  advances P fixed w (close w).1.
Proof.
  intros Htask Hbox. rewrite close_general. simpl.
  apply advances_emitted. unfold close_effects. apply Forall_app. split.
  - destruct (agent_task (self w)) as [t |]; simpl; [ | constructor ].
    constructor; [ by apply Htask | constructor ].
  - destruct (controller (self w)) as [c |]; simpl; constructor;
      [ apply Hbox | constructor ].
Qed.

(** A request under a name other than INIT. *)
Lemma advances_dispatch_generic (P : Effect → Prop) (fixed : bool)
    (name : string) (data : loc) (w : World) :
  name ≠ ActionType_INIT →
  P (Print (Some name)) →
  advances P fixed w (dispatch (Some name) data w).1.
Proof.
  intros Hname HP.
  assert (Hcopy : ∀ d, advances P fixed w (after_copy name d w)).
  { intros d. unfold after_copy.
    apply (advances_trans P fixed w (emitted [Print (Some name)] w)).
    - apply advances_emitted. by constructor.
    - apply (advances_alloc P fixed (<["action" := PStr name]> d)
               (emitted [Print (Some name)] w)). }
  destruct (heap w !! data) as [d |] eqn:Hd.
  - rewrite (dispatch_generic name data d w Hname Hd).
    destruct (action_from_dict _) as [e | ev]; simpl; [ apply Hcopy | ].
    apply (advances_trans P fixed w (after_copy name d w)); [ apply Hcopy | ].
    by apply advances_published.
  - rewrite (dispatch_dangling name data w Hname Hd). simpl.
    apply advances_emitted. by constructor.
Qed.

Lemma advances_call (P : Effect → Prop) (c : Call) (w : World) :
  (∀ e : Effect, may_emit (self w) e → P e) →
  advances P (negb (is_bootstrap c)) w (call c w).1.
Proof.
  intros HP.
  assert (Hfree : ∀ e : Effect, (∀ t, e ≠ TaskCancel t) → P e).
  { intros e He. apply HP. intros t Ht. by destruct (He t). }
  destruct c as [m | m | d | action data | l | | new_state | event | ];
    cbn [call is_bootstrap negb].
  - apply keeps_emit, Hfree. discriminate.
  - apply keeps_emit, Hfree. discriminate.
  - apply keeps_emit, Hfree. discriminate.
  - destruct action as [name |]; cbn [negb].
    + case_bool_decide as Hname; cbn [negb].
      * unfold dispatch. rewrite bool_decide_eq_true_2 by exact Hname.
        apply keeps_bind; [ apply keeps_emit, Hfree; discriminate | ].
        intros _. apply keeps_create_controller;
          intros; apply Hfree; discriminate.
      * apply advances_dispatch_generic; [ exact Hname | ].
        apply Hfree. discriminate.
    + unfold dispatch.
      apply keeps_bind; [ apply keeps_emit, Hfree; discriminate | ].
      intros _. apply keeps_emit, Hfree. discriminate.
  - apply keeps_create_controller; intros; apply Hfree; discriminate.
  - apply keeps_init_done. intros. apply Hfree. discriminate.
  - apply keeps_set_agent_state. intros. apply Hfree. discriminate.
  - apply keeps_on_event. intros. apply Hfree. discriminate.
  - apply advances_close.
    + intros t Ht. apply HP. intros t' [= <-]. exact Ht.
    + intros c. apply Hfree. discriminate.
Qed.

Lemma advances_calls (P : Effect → Prop) (cs : list Call) (w : World) :
  (∀ e : Effect, may_emit (self w) e → P e) →
  advances P (forallb (λ c, negb (is_bootstrap c)) cs) w (calls cs w).
Proof.
  revert w. induction cs as [ | c cs IH ]; intros w HP; simpl.
  - apply advances_refl.
  - pose proof (advances_call P c w HP) as Hc.
    assert (Htask : agent_task (self (call c w).1) = agent_task (self w))
      by apply Hc.
    assert (HP' : ∀ e, may_emit (self (call c w).1) e → P e).
    { intros e He. apply HP. intros t Ht. rewrite <- Htask. by apply He. }
    specialize (IH (call c w).1 HP').
    destruct (is_bootstrap c); simpl in *.
    + apply (advances_trans P false w (call c w).1); [ exact Hc | ].
      destruct (forallb _ cs); [ by apply advances_unfix | exact IH ].
    + destruct (forallb _ cs).
      * by apply (advances_trans P true w (call c w).1).
      * apply (advances_trans P false w (call c w).1);
          [ by apply advances_unfix | exact IH ].
Qed.

End Frames.

Lemma published_ne_emitted (e : Event) (x : Effect) (w : World) :
  published e w ≠ emitted [x] w.
Proof.
  intros Heq. apply (f_equal (λ w', length (trace w'))) in Heq. simpl in Heq.
  rewrite length_app in Heq. simpl in Heq. lia.
Qed.

Lemma data_sent_quiet (es : list Effect) :
  Forall (λ e, ∀ d : pydict, e ≠ Send d) es → data_sent es = [].
Proof.
  induction 1 as [ | e es He _ IH ]; [ reflexivity | ].
  change (e :: es) with ([e] ++ es). rewrite data_sent_app, IH. destruct e; try reflexivity. by destruct (He data).
Qed.

Section Behaviour.

Context `{!Imports}.

(** ** State transitions, continued *)

(** X6.  With a controller in place, a request is turned down as "not
    recognized" exactly when its target is none of PAUSED, RUNNING and
    STOPPED, and it is published exactly when the target is one of them:
    for those three targets no current state is ever refused. *)
Theorem set_agent_state_rejects_iff (new_state : AgentState)
    (c : AgentController) (w : World) :
  controller (self w) = Some c →
  (set_agent_state new_state w
   = (emitted [SendError "Current task state not recognized."] w, inr tt)
   ↔ new_state ∉ [PAUSED; RUNNING; STOPPED])
  ∧ (set_agent_state new_state w
     = (published (state_changed new_state) w, inr tt)
     ↔ new_state ∈ [PAUSED; RUNNING; STOPPED]).
Proof.
  intros Hc.
  destruct (decide (new_state ∈ [PAUSED; RUNNING; STOPPED])) as [Hin | Hout].
  - assert (Hrun : set_agent_state new_state w
                   = (published (state_changed new_state) w, inr tt)).
    { apply (set_agent_state_accepts new_state c w Hc). by apply tables_cover. }
    rewrite Hrun. split; split; try done.
    intros Heq.
    destruct (published_ne_emitted (state_changed new_state)
                (SendError "Current task state not recognized.") w).
    congruence.
  - destruct (untabled_target new_state (get_agent_state c) Hout) as [Hv Hi].
    assert (Hrun : set_agent_state new_state w
              = (emitted [SendError "Current task state not recognized."] w,
                 inr tt)).
    { unfold set_agent_state, bind, get_self. rewrite Hc.
      rewrite bool_decide_eq_false_2 by exact Hv.
      by rewrite bool_decide_eq_false_2 by exact Hi. }
    rewrite Hrun. split; split; try done.
    intros Heq.
    destruct (published_ne_emitted (state_changed new_state)
                (SendError "Current task state not recognized.") w).
    congruence.
Qed.

(** X7.  [set_agent_state] always returns normally and never touches the
    controller, the task, the dictionaries or the data channel; it does
    exactly one of two things: append the one state-change event, or
    report one error. *)
Theorem set_agent_state_outcomes (new_state : AgentState) (w : World) :
  (set_agent_state new_state w).2 = inr tt
  ∧ controller (self (set_agent_state new_state w).1) = controller (self w)
  ∧ agent_task (self (set_agent_state new_state w).1) = agent_task (self w)
  ∧ heap (set_agent_state new_state w).1 = heap w
  ∧ data_sent (trace (set_agent_state new_state w).1) = data_sent (trace w)
  ∧ ((event_stream (self (set_agent_state new_state w).1)
      = event_stream (self w) ++ [state_changed new_state]
      ∧ trace (set_agent_state new_state w).1 = trace w)
     ∨ (event_stream (self (set_agent_state new_state w).1) = event_stream (self w)
        ∧ ∃ m : string,
            trace (set_agent_state new_state w).1 = trace w ++ [SendError m])).
Proof.
  assert (Hcases :
    set_agent_state new_state w = (published (state_changed new_state) w, inr tt)
    ∨ ∃ m : string, set_agent_state new_state w = (emitted [SendError m] w, inr tt)).
  { unfold set_agent_state, bind, get_self.
    destruct (controller (self w)) as [c |]; [ | right; by eexists ].
    repeat case_bool_decide;
      first [ left; apply add_event_state_changed | right; by eexists ]. }
  destruct Hcases as [-> | [m ->]]; simpl.
  - repeat (split; [ reflexivity | ]). left. by split.
  - repeat (split; [ first [ reflexivity | by rewrite data_sent_app, app_nil_r ] | ]).
    right. split; [ reflexivity | by exists m ].
Qed.

(** ** Controller bootstrap, continued *)

(** Before anything is logged: a request that cannot be read. *)
Lemma create_controller_early (start_event : loc) (w : World) :
  (heap w !! start_event = None →
     create_controller start_event w
     = (w, inl (OtherException "dangling reference")))
  ∧ (∀ (ev : pydict) (e : exn),
       heap w !! start_event = Some ev →
       extract_args ev = inl e →
       create_controller start_event w = (w, inl e)).
Proof.
  split.
  - intros Hnone. unfold create_controller, bind at 1, deref. by rewrite Hnone.
  - intros ev e Hev Hargs. unfold create_controller.
    unfold bind at 1. unfold deref at 1. rewrite Hev.
    unfold bind at 1. by rewrite Hargs.
Qed.

(** X8.  A successful INIT request through [dispatch] installs the
    controller that was built -- whatever the session held before, there
    is no guard against a second INIT -- and publishes exactly one
    [AgentStateChanged(INIT)] event stamped as the user's; the request and
    the creation are logged, no error is reported and nothing is sent. *)
Theorem dispatch_init_success (data : loc) (ev args : pydict) (llm : LLM)
    (c : AgentController) (w : World) :
  heap w !! data = Some ev →
  extract_args ev = inr args →
  LLM_init (model (resolve_settings args)) (api_key (resolve_settings args))
    (api_base (resolve_settings args)) = inr llm →
  build_controller (self w) (resolve_settings args) llm = inr c →
  dispatch (Some ActionType_INIT) data w
  = (published (state_changed INIT)
       (with_self (set_controller (Some c))
          (emitted [Print (Some ActionType_INIT);
                    LogInfo (agent_cls (resolve_settings args))
                      (model (resolve_settings args))] w)), inr tt)
  ∧ controller (self (dispatch (Some ActionType_INIT) data w).1) = Some c
  ∧ event_stream (self (dispatch (Some ActionType_INIT) data w).1)
    = event_stream (self w) ++ [state_changed INIT]
  ∧ errors_sent (trace (dispatch (Some ActionType_INIT) data w).1)
    = errors_sent (trace w)
  ∧ data_sent (trace (dispatch (Some ActionType_INIT) data w).1)
    = data_sent (trace w).
Proof.
  intros Hev Hargs Hllm Hbuild.
  assert (Hrun : dispatch (Some ActionType_INIT) data w
    = (published (state_changed INIT)
         (with_self (set_controller (Some c))
            (emitted [Print (Some ActionType_INIT);
                      LogInfo (agent_cls (resolve_settings args))
                        (model (resolve_settings args))] w)), inr tt)).
  { unfold dispatch. rewrite bool_decide_eq_true_2 by reflexivity.
    unfold bind at 1. cbn [emit].
    change (with_trace _ w) with (emitted [Print (Some ActionType_INIT)] w).
    rewrite (create_controller_run data ev args
               (emitted [Print (Some ActionType_INIT)] w) Hev Hargs).
    cbv zeta. rewrite Hllm.
    change (self (emitted _ w)) with (self w). rewrite Hbuild.
    by rewrite emitted_emitted. }
  split; [ exact Hrun | ]. rewrite Hrun. simpl.
  split; [ reflexivity | ]. split; [ reflexivity | ].
  split; [ by rewrite errors_sent_app, app_nil_r
         | by rewrite data_sent_app, app_nil_r ].
Qed.

(** X9.  Whatever happens in [create_controller], it leaves every
    dictionary, the task handle and the data channel alone; the only
    error it can report is the one about creating the controller, at most
    once -- the "No agent started." check of [init_done] never fires
    from here -- and the log either stays as it was, together with the
    controller, or gains exactly the INIT announcement, and then a
    controller is in place and the call returned normally. *)
Theorem create_controller_frame (start_event : loc) (w : World) :
  heap (create_controller start_event w).1 = heap w
  ∧ agent_task (self (create_controller start_event w).1) = agent_task (self w)
  ∧ data_sent (trace (create_controller start_event w).1) = data_sent (trace w)
  ∧ (errors_sent (trace (create_controller start_event w).1)
     = errors_sent (trace w)
     ∨ errors_sent (trace (create_controller start_event w).1)
       = errors_sent (trace w) ++ [controller_error_message])
  ∧ ((event_stream (self (create_controller start_event w).1)
      = event_stream (self w)
      ∧ controller (self (create_controller start_event w).1)
        = controller (self w))
     ∨ (event_stream (self (create_controller start_event w).1)
        = event_stream (self w) ++ [state_changed INIT]
        ∧ is_Some (controller (self (create_controller start_event w).1))
        ∧ (create_controller start_event w).2 = inr tt)).
Proof.
  destruct (create_controller_early start_event w) as [Hdangling Hunread].
  destruct (heap w !! start_event) as [ev |] eqn:Hev.
  2: { rewrite (Hdangling eq_refl). simpl.
       repeat (split; [ reflexivity | ]). split; [ by left | ]. left. by split. }
  destruct (extract_args ev) as [e | args] eqn:Hargs.
  { rewrite (Hunread ev e eq_refl Hargs). simpl.
    repeat (split; [ reflexivity | ]). split; [ by left | ]. left. by split. }
  rewrite (create_controller_run start_event ev args w Hev Hargs). cbv zeta.
  destruct (LLM_init _ _ _) as [e | llm]; simpl.
  { repeat (split; [ first [ reflexivity | by rewrite data_sent_app, app_nil_r ] | ]).
    split; [ left; by rewrite errors_sent_app, app_nil_r | ]. left. by split. }
  destruct (build_controller _ _ _) as [e | c]; simpl.
  - repeat (split; [ first [ reflexivity
                            | by rewrite !data_sent_app, !app_nil_r ] | ]).
    split; [ right; by rewrite !errors_sent_app, app_nil_r | ]. left. by split.
  - repeat (split; [ first [ reflexivity | by rewrite data_sent_app, app_nil_r ] | ]).
    split; [ left; by rewrite errors_sent_app, app_nil_r | ].
    right. split; [ reflexivity | ]. split; [ by eexists | reflexivity ].
Qed.

(** X10.  An INIT request whose [args] entry is present but is not a
    mapping is not handled: the exception raised on reading it leaves
    [dispatch] before anything is logged about the agent, no error is
    reported to the client, and the session is otherwise as it was. *)
Theorem dispatch_init_bad_args (data : loc) (ev : pydict) (v : pyval) (w : World) :
  heap w !! data = Some ev →
  ev !! "args" = Some v →
  (∀ items : pydict, v ≠ PDict items) →
  ∃ msg : string,
    create_controller data w = (w, inl (AttributeError msg))
    ∧ dispatch (Some ActionType_INIT) data w
      = (emitted [Print (Some ActionType_INIT)] w, inl (AttributeError msg)).
Proof.
  intros Hev Hargs Hv.
  assert (Hbad : extract_args ev = inl (AttributeError "items")).
  { unfold extract_args. rewrite Hargs.
    destruct v; try reflexivity. by destruct (Hv d). }
  exists "items". split.
  - by apply (proj2 (create_controller_early data w) ev).
  - unfold dispatch. rewrite bool_decide_eq_true_2 by reflexivity.
    unfold bind at 1. cbn [emit].
    change (with_trace _ w) with (emitted [Print (Some ActionType_INIT)] w).
    by rewrite (proj2 (create_controller_early data
                         (emitted [Print (Some ActionType_INIT)] w))
                  ev _ Hev Hbad).
Qed.

(** X11.  An empty string sent by the front end never reaches the
    constructors: no kept argument is the empty string, and a resolved
    setting is the empty string only if the configured default is. *)
Theorem resolved_never_empty (ev args : pydict) :
  extract_args ev = inr args →
  (∀ k : string, args !! k ≠ Some (PStr ""))
  ∧ (∀ key : ConfigType,
       config_get key ≠ PStr "" → get_arg_or_default args key ≠ PStr "").
Proof.
  intros Hargs.
  assert (Hkept : ∀ k : string, args !! k ≠ Some (PStr "")).
  { unfold extract_args in Hargs.
    destruct (ev !! "args") as [[ | | | | | items] |]; try discriminate.
    - assert (args = filter (λ kv : string * pyval, is_empty_str kv.2 = false) items)
        by congruence.
      subst args. intros k Hk.
      apply map_lookup_filter_Some in Hk as [_ Hk]. discriminate.
    - assert (args = ∅) by congruence. subst args. intros k.
      by rewrite lookup_empty. }
  split; [ exact Hkept | ].
  intros key Hdefault. unfold get_arg_or_default.
  destruct (args !! ConfigType_value key) as [v |] eqn:Hv; simpl.
  - intros ->. by destruct (Hkept (ConfigType_value key)).
  - exact Hdefault.
Qed.

(** ** Dispatch, continued *)

(** X12.  When the typed action cannot be built from a request under a
    name other than INIT, the exception leaves [dispatch] as it is:
    nothing is published, no error is reported to the client, the
    controller is not touched and the caller's dictionary is unchanged. *)
Theorem dispatch_construction_failure (name : string) (data : loc)
    (d : pydict) (e : exn) (w : World) :
  name ≠ ActionType_INIT →
  heap w !! data = Some d →
  action_from_dict (<["action" := PStr name]> d) = inl e →
  (dispatch (Some name) data w).2 = inl e
  ∧ self (dispatch (Some name) data w).1 = self w
  ∧ trace (dispatch (Some name) data w).1 = trace w ++ [Print (Some name)]
  ∧ heap (dispatch (Some name) data w).1 !! data = Some d.
Proof.
  intros Hname Hd He.
  rewrite (dispatch_generic name data d w Hname Hd), He. simpl.
  repeat (split; [ reflexivity | ]).
  rewrite lookup_insert_ne; [ exact Hd | ].
  intros Heq. apply (is_fresh (dom (heap w))). rewrite Heq.
  apply elem_of_dom. by eexists.
Qed.

(** X13.  Whatever the action and the request, [dispatch] only prints,
    logs and reports errors: it never forwards anything on the data
    channel (a client's request is not echoed back), never cancels the
    task and never closes the sandbox. *)
Theorem dispatch_quiet (action : option string) (data : loc) (w : World) :
  (∃ es : list Effect,
     trace (dispatch action data w).1 = trace w ++ es
     ∧ Forall (λ e, match e with
                    | Print _ | LogInfo _ _ | LogException _ | SendError _ => True
                    | _ => False
                    end) es)
  ∧ data_sent (trace (dispatch action data w).1) = data_sent (trace w).
Proof.
  set (P := λ e : Effect,
              match e with
              | Print _ | LogInfo _ _ | LogException _ | SendError _ => True
              | _ => False
              end).
  assert (Hadv : advances P false w (dispatch action data w).1).
  { destruct action as [name |].
    - destruct (decide (name = ActionType_INIT)) as [Hname | Hname].
      + unfold dispatch. rewrite bool_decide_eq_true_2 by exact Hname.
        apply keeps_bind; [ by apply keeps_emit | ].
        intros _. by apply keeps_create_controller.
      + by apply advances_dispatch_generic.
    - unfold dispatch.
      apply keeps_bind; [ by apply keeps_emit | ].
      intros _. by apply keeps_emit. }
  destruct Hadv as (_ & _ & _ & (es & Hes & HP) & _).
  split; [ by exists es | ].
  rewrite Hes, data_sent_app, (data_sent_quiet es), app_nil_r; [ reflexivity | ].
  eapply Forall_impl; [ exact HP | ].
  intros e He d' ->. exact He.
Qed.

(** ** Outbound filtering, continued *)

(** X14.  [on_event] never changes the unit or the dictionaries and never
    reports an error; when the wire form of an agent's event cannot be
    produced, the exception leaves [on_event] and nothing is sent. *)
Theorem on_event_frame (event : Event) (w : World) :
  self (on_event event w).1 = self w
  ∧ heap (on_event event w).1 = heap w
  ∧ errors_sent (trace (on_event event w).1) = errors_sent (trace w)
  ∧ (∀ x : exn,
       is_NullAction event = false →
       is_NullObservation event = false →
       source event = Some "agent" →
       to_dict event = inl x →
       on_event event w = (w, inl x)).
Proof.
  unfold on_event.
  destruct (is_NullAction event);
    [ repeat (split; [ reflexivity | ]); discriminate | ].
  destruct (is_NullObservation event);
    [ repeat (split; [ reflexivity | ]); discriminate | ].
  case_bool_decide as Hsrc;
    [ | repeat (split; [ reflexivity | ]); intros; contradiction ].
  unfold bind, lift. destruct (to_dict event) as [x | wire]; simpl.
  - repeat (split; [ reflexivity | ]). intros x' _ _ _ Hx. congruence.
  - repeat (split; [ first [ reflexivity
                            | by rewrite errors_sent_app, app_nil_r ] | ]).
    discriminate.
Qed.

(** ** Teardown, continued *)


(** ** Sequences of calls *)

(** X16.  However the methods of a unit are called, and whether or not
    the calls raise: the session id and the task handle never change,
    the log only grows, and only by events stamped as the user's, the
    trace only grows, and every dictionary that existed is still there
    with the same items. *)
Theorem calls_invariant (cs : list Call) (w : World) :
  sid (self (calls cs w)) = sid (self w)
  ∧ agent_task (self (calls cs w)) = agent_task (self w)
  ∧ (∃ evs : list Event,
       event_stream (self (calls cs w)) = event_stream (self w) ++ evs
       ∧ Forall user_stamped evs)
  ∧ (∃ es : list Effect, trace (calls cs w) = trace w ++ es)
  ∧ (∀ (l : loc) (d : pydict),
       heap w !! l = Some d → heap (calls cs w) !! l = Some d).
Proof.
  destruct (advances_calls (λ _, True) cs w (λ _ _, I))
    as (Hsid & Htask & Hlog & (es & Hes & _) & Hheap & _).
  split; [ exact Hsid | ]. split; [ exact Htask | ]. split; [ exact Hlog | ].
  split; [ by exists es | ].
  intros l d Hl. by apply (lookup_weaken (heap w)).
Qed.

(** X17.  No method assigns [agent_task]: in a session that starts from
    [__init__], whatever is called afterwards, no task is ever asked to
    cancel, the task handle is still [None], and every event in the log
    is stamped as the user's. *)
Theorem fresh_session_never_cancels (s : string) (h : gmap loc pydict)
    (cs : list Call) :
  (∀ t : Task, TaskCancel t ∉ trace (calls cs (mkWorld (AgentUnit_init s) [] h)))
  ∧ agent_task (self (calls cs (mkWorld (AgentUnit_init s) [] h))) = None
  ∧ sid (self (calls cs (mkWorld (AgentUnit_init s) [] h))) = s
  ∧ Forall user_stamped
      (event_stream (self (calls cs (mkWorld (AgentUnit_init s) [] h)))).
Proof.
  set (w0 := mkWorld (AgentUnit_init s) [] h).
  destruct (advances_calls (λ e, ∀ t : Task, e ≠ TaskCancel t) cs w0)
    as (Hsid & Htask & (evs & Hevs & Huser) & (es & Hes & Hfree) & _).
  { intros e He t ->. specialize (He t eq_refl). discriminate He. }
  split; [ | split; [ exact Htask | split; [ exact Hsid | ] ] ].
  - intros t Hin. rewrite Hes in Hin. simpl in Hin.
    rewrite Forall_forall in Hfree. by destruct (Hfree _ Hin t).
  - rewrite Hevs. exact Huser.
Qed.

(** X18.  Only an INIT request or a direct call of [create_controller]
    can change the controller: after any other calls it is what it was,
    so in a session without a controller every state request made after
    them is still answered with "No agent started.". *)
Theorem no_bootstrap_no_controller (cs : list Call) (w : World) :
  forallb (λ c, negb (is_bootstrap c)) cs = true →
  controller (self (calls cs w)) = controller (self w)
  ∧ (controller (self w) = None →
     ∀ new_state : AgentState,
       set_agent_state new_state (calls cs w)
       = (emitted [SendError "No agent started."] (calls cs w), inr tt)).
Proof.
  intros Hcs.
  pose proof (advances_calls (λ _, True) cs w (λ _ _, I)) as Hadv.
  rewrite Hcs in Hadv. destruct Hadv as (_ & _ & _ & _ & _ & Hctl).
  split; [ by apply Hctl | ].
  intros Hnone new_state. unfold set_agent_state, bind, get_self.
  by rewrite (Hctl eq_refl), Hnone.
Qed.

End Behaviour.

(** ** The further properties at concrete sessions *)

Lemma set_agent_state_rejects_iff_witness :
  @set_agent_state sample_imports PAUSED (world_in FINISHED)
  = (published (state_changed PAUSED) (world_in FINISHED), inr tt)
  ∧ @set_agent_state sample_imports INIT (world_in FINISHED)
    = (emitted [SendError "Current task state not recognized."]
         (world_in FINISHED), inr tt).
Proof.
  split.
  - apply (proj2 (@set_agent_state_rejects_iff sample_imports PAUSED
                    (sample_controller FINISHED) (world_in FINISHED) eq_refl)).
    mem_true.
  - apply (proj1 (@set_agent_state_rejects_iff sample_imports INIT
                    (sample_controller FINISHED) (world_in FINISHED) eq_refl)).
    intros Hin. mem_false Hin.
Defined.

Lemma dispatch_init_success_witness :
  event_stream
    (self (@dispatch sample_imports (Some "initialize") 3%positive fresh_world).1)
  = [state_changed INIT].
Proof.
  assert (Hev : heap fresh_world !! 3%positive = Some init_request)
    by (vm_compute; reflexivity).
  assert (Hargs : extract_args init_request
                  = inr {[ "agent" := PStr "MonologueAgent";
                           "max_iterations" := PInt 30 ]})
    by (vm_compute; reflexivity).
  refine (proj1 (proj2 (proj2
            (@dispatch_init_success sample_imports 3%positive init_request _
               (mkLLM (PStr "gpt-3.5-turbo") PNone (PStr "http://localhost:4000"))
               (mkAgentController "sid-1"
                  (mkAgent (PStr "MonologueAgent")
                     (mkLLM (PStr "gpt-3.5-turbo") PNone
                        (PStr "http://localhost:4000")))
                  30 5000000 INIT)
               fresh_world Hev Hargs _ _)))).
  - vm_compute. reflexivity.
  - vm_compute. reflexivity.
Defined.

Lemma dispatch_init_bad_args_witness :
  ∃ msg : string,
    @dispatch sample_imports (Some "initialize") 1%positive
      (mkWorld (AgentUnit_init "sid-1") [] {[ 1%positive := {[ "args" := PNone ]} ]})
    = (emitted [Print (Some "initialize")]
         (mkWorld (AgentUnit_init "sid-1") []
            {[ 1%positive := {[ "args" := PNone ]} ]}),
       inl (AttributeError msg)).
Proof.
  destruct (@dispatch_init_bad_args sample_imports 1%positive
              {[ "args" := PNone ]} PNone
              (mkWorld (AgentUnit_init "sid-1") []
                 {[ 1%positive := {[ "args" := PNone ]} ]}))
    as (msg & _ & Hrun).
  - vm_compute. reflexivity.
  - vm_compute. reflexivity.
  - discriminate.
  - by exists msg.
Defined.

Lemma resolved_never_empty_witness :
  @get_arg_or_default sample_imports {[ "agent" := PStr "NoSuchAgent" ]} LLM_MODEL
  ≠ PStr "".
Proof.
  refine (proj2 (@resolved_never_empty sample_imports bad_init_request
                   {[ "agent" := PStr "NoSuchAgent" ]} _) LLM_MODEL _).
  - vm_compute. reflexivity.
  - discriminate.
Defined.

Lemma dispatch_construction_failure_witness :
  (@dispatch sample_imports (Some "run") 1%positive
     (mkWorld (AgentUnit_init "sid-1") [] {[ 1%positive := {[ "args" := PInt 3 ]} ]})).2
  = inl (TypeError "args must be a mapping").
Proof.
  refine (proj1 (@dispatch_construction_failure sample_imports "run" 1%positive
                   {[ "args" := PInt 3 ]} (TypeError "args must be a mapping")
                   (mkWorld (AgentUnit_init "sid-1") []
                      {[ 1%positive := {[ "args" := PInt 3 ]} ]}) _ _ _)).
  - discriminate.
  - vm_compute. reflexivity.
  - vm_compute. reflexivity.
Defined.

Lemma on_event_frame_witness :
  ∃ x : exn,
    @on_event sample_imports
      (mkEvent (Action {[ "cmd" := PStr "ls" ]}) (Some "agent")) fresh_world
    = (fresh_world, inl x).
Proof.
  exists (NotImplementedError "does not have action attribute set").
  apply (proj2 (proj2 (proj2 (@on_event_frame sample_imports
                                (mkEvent (Action {[ "cmd" := PStr "ls" ]})
                                   (Some "agent")) fresh_world))));
    vm_compute; reflexivity.
Defined.

Lemma no_bootstrap_no_controller_witness :
  @set_agent_state sample_imports PAUSED
    (@calls sample_imports
       [Call_dispatch (Some "run") 1%positive; Call_close;
        Call_set_agent_state RUNNING] fresh_world)
  = (emitted [SendError "No agent started."]
       (@calls sample_imports
          [Call_dispatch (Some "run") 1%positive; Call_close;
           Call_set_agent_state RUNNING] fresh_world), inr tt).
Proof.
  refine (proj2 (@no_bootstrap_no_controller sample_imports
                   [Call_dispatch (Some "run") 1%positive; Call_close;
                    Call_set_agent_state RUNNING] fresh_world _) _ PAUSED).
  - vm_compute. reflexivity.
  - reflexivity.
Defined.
